(** * investinglive-digest: the feed pipeline of [ilive_feed.py]

    A shallow embedding of the feed acquisition and normalisation pipeline
    (conditional fetch with retry, tagging, summary normalisation, sorting
    and filtering), followed by the properties established about it. *)

From Stdlib Require Import ZArith NArith Ascii String Lia Sorted.
From stdpp Require Import gmap strings list.

Local Open Scope Z_scope.

(** ** Python strings

    A Python [str] is a sequence of Unicode code points; [len] counts code
    points, slicing and comparison work code point by code point. *)

Abbreviation pystr := (list N).

(** An ASCII literal of the source, as code points. *)
Definition py (s : string) : pystr :=
  List.map N_of_ascii (list_ascii_of_string s).

Definition ELLIPSIS : N := 8230%N.   (* U+2026, appended on truncation *)
Definition NEWLINE : N := 10%N.
Definition SPACE : N := 32%N.
Definition SLASH : N := 47%N.
Definition HYPHEN : N := 45%N.
Definition UNDERSCORE : N := 95%N.
Definition HASH : N := 35%N.

Definition is_ascii (c : N) : bool := (c <? 128)%N.

Definition in_range (lo hi c : N) : bool := ((lo <=? c) && (c <=? hi))%N.

Definition ascii_lower (c : N) : N :=
  if in_range 65 90 c then (c + 32)%N else c.

Definition ascii_upper (c : N) : N :=
  if in_range 97 122 c then (c - 32)%N else c.

Definition ascii_alnum (c : N) : bool :=
  in_range 48 57 c || in_range 65 90 c || in_range 97 122 c.

(** [str.isspace] for one code point; the same set is used by [str.strip]
    without argument and by [\s] in a [str] pattern. *)
Definition is_space (c : N) : bool :=
  in_range 9 13 c || in_range 28 32 c || (c =? 133)%N || (c =? 160)%N
  || (c =? 5760)%N || in_range 8192 8202 c || (c =? 8232)%N || (c =? 8233)%N
  || (c =? 8239)%N || (c =? 8287)%N || (c =? 12288)%N.

(** Truthiness of a string: the empty string is falsy. *)
Definition truthy (s : pystr) : bool :=
  match s with [] => false | _ :: _ => true end.

(** [x or ""] and the truthiness of an [Optional[str]]. *)
Definition or_empty (o : option pystr) : pystr :=
  match o with Some s => s | None => [] end.

Definition truthy_opt (o : option pystr) : bool := truthy (or_empty o).

(** [a or b] on optional strings: [a] when truthy, otherwise [b]. *)
Definition py_or (a b : option pystr) : option pystr :=
  if truthy_opt a then a else b.

Fixpoint lstrip_by (p : N -> bool) (s : pystr) : pystr :=
  match s with
  | c :: t => if p c then lstrip_by p t else s
  | [] => []
  end.

Definition rstrip_by (p : N -> bool) (s : pystr) : pystr :=
  rev (lstrip_by p (rev s)).

Definition strip_by (p : N -> bool) (s : pystr) : pystr :=
  rstrip_by p (lstrip_by p s).

Definition strip : pystr -> pystr := strip_by is_space.
Definition rstrip : pystr -> pystr := rstrip_by is_space.

(** [s.replace(a, b)] for single characters. *)
Definition replace_char (a b : N) (s : pystr) : pystr :=
  List.map (fun c => if (c =? a)%N then b else c) s.

(** [s.split(sep, 1)[0]]: the part before the first [sep] (all of [s] when
    there is none). *)
Fixpoint before_first (sep : N) (s : pystr) : pystr :=
  match s with
  | [] => []
  | c :: t => if (c =? sep)%N then [] else c :: before_first sep t
  end.

(** Comparison of strings: lexicographic on code points. *)
Fixpoint str_compare (a b : pystr) : comparison :=
  match a, b with
  | [], [] => Eq
  | [], _ :: _ => Lt
  | _ :: _, [] => Gt
  | x :: a', y :: b' =>
      match (x ?= y)%N with
      | Eq => str_compare a' b'
      | c => c
      end
  end.

Definition str_lt (a b : pystr) : bool :=
  match str_compare a b with Lt => true | _ => false end.

Definition str_le (a b : pystr) : bool :=
  match str_compare a b with Gt => false | _ => true end.

(** ** Datetimes

    A [datetime] is its wall-clock reading, counted in microseconds from
    0001-01-01 00:00:00, with the UTC offset of its [tzinfo] at that reading
    when it is aware. *)

Record datetime := { wall : Z; utcoffset : option Z }.

Definition US_PER_HOUR : Z := 3600000000.
Definition US_PER_DAY : Z := 24 * US_PER_HOUR.
(** 9999-12-31 23:59:59.999999 *)
Definition DATETIME_MAX : Z := 3652059 * US_PER_DAY - 1.
Definition TIMEDELTA_MAX_DAYS : Z := 999999999.

Definition datetime_in_range (w : Z) : bool :=
  (0 <=? w) && (w <=? DATETIME_MAX).

(** ** Entries of a parsed feed, as [feedparser] exposes them *)

Record RawEntry := {
  e_published : option pystr;
  e_updated : option pystr;
  e_published_parsed : option (list Z);
  e_updated_parsed : option (list Z);
  e_title : option pystr;
  e_summary : option pystr;
  e_link : option pystr
}.

(** ** The libraries the module calls

    The behaviour of the third-party and standard-library functions that
    [ilive_feed.py] calls and that is not fixed by the module itself.  A
    result of [None] stands for a raised exception. *)

Class PyLibs := {
  (** [str.lower] on a string with non-ASCII characters *)
  uni_lower : pystr -> pystr;
  (** [str.upper] of one non-ASCII character *)
  uni_upper : N -> pystr;
  (** whether a non-ASCII character is alphanumeric ([\w] in a pattern) *)
  uni_alnum : N -> bool;
  (** [feedparser.parse(xml_text).entries] *)
  feedparser_entries : pystr -> list RawEntry;
  (** [dateutil.parser.parse] *)
  dtparse_parse : pystr -> option datetime;
  (** the [datetime] built from the first six fields of a [struct_time],
      with [tzinfo=timezone.utc] *)
  datetime_utc : list Z -> option datetime;
  (** offset of America/New_York at a UTC instant *)
  ny_utcoffset : Z -> Z;
  (** [strftime("%Y-%m-%d %H:%M")] of a wall-clock reading *)
  strftime_ymd_hm : Z -> pystr;
  (** lines 142-147: [BeautifulSoup(html, "html.parser")], the list markers
      inserted, the list containers unwrapped, then
      [get_text(separator=" ", strip=True)], for markup that the parser
      accepts; markup that it rejects makes [_html_to_text] raise, and no
      string is returned for it *)
  soup_get_text : pystr -> pystr;
  (** [html.unescape] *)
  html_unescape : pystr -> pystr;
  (** [urlparse(link).path] *)
  urlparse_path : pystr -> option pystr;
  (** whether [r.raise_for_status()] raises (an [httpx.HTTPStatusError])
      for a response with this status code *)
  status_raises : Z -> bool
}.

(** ** The cache file and the transport *)

(** A JSON object whose values are strings or [null]. *)
Abbreviation json_dict := (gmap string (option pystr)).

(** What is at [CACHE_FILE]: nothing, something [json.load] fails on, or a
    JSON object whose values are strings or nulls, which is what
    [_save_cache] writes.  A file that holds valid JSON of another shape (an
    array, a number for [etag]) is not among these states: on an array
    [polite_fetch] fails at its first [cache.get], before any request. *)
Inductive cache_file :=
| FileAbsent
| FileUnreadable
| FileJson (d : json_dict).

(** How an attempt to write the cache file goes: written; [open] fails and
    the file is as before; or the write fails after [open] truncated it. *)
Inductive write_outcome := WriteOk | OpenFails | DumpFails.

Record response := {
  status_code : Z;
  hdr_etag : option pystr;            (* r.headers.get("ETag") *)
  hdr_last_modified : option pystr;   (* r.headers.get("Last-Modified") *)
  r_text : pystr
}.

(** Exceptions that leave a function of the module. *)
Inductive exn :=
| HTTPError         (* httpx.HTTPError and its subclasses *)
| OverflowError     (* a datetime or timedelta out of range *)
| ValueError        (* a utc offset of a day or more *)
| DateParseError    (* raised by dateutil's parser *)
| ClientError.      (* anything else raised while the request is made *)

Inductive result (A : Type) :=
| Ok (a : A)
| Raise (e : exn).
Arguments Ok {A} a.
Arguments Raise {A} e.

#[global] Instance result_ret : MRet result := @Ok.
#[global] Instance result_bind : MBind result := fun A B k r =>
  match r with
  | Ok a => k a
  | Raise e => Raise e
  end.

(** What building the client and [client.get(url)] give on one attempt. *)
Inductive outcome :=
| Responds (r : response)
| Throws (e : exn).

(** One call of [time.sleep(backoff + 0.1 * tenths)]. *)
Record nap := { nap_backoff : Z; nap_tenths : Z }.

(** The surroundings of one request to the module: the upstream server seen
    through the client (request headers, url and attempt number give the
    outcome of the attempt), the clock, and the disk. *)
Record World := {
  client_get : gmap string pystr -> pystr -> Z -> outcome;
  utcnow_isoformat : pystr;     (* datetime.now(timezone.utc).isoformat() *)
  cache_write : write_outcome;
  now_ny : Z                    (* wall-clock reading of datetime.now(NY_TZ) *)
}.

(** The state the module acts on: the cache file and the time slept. *)
Record Sys := { cache : cache_file; slept : list nap }.

Section Pipeline.

Context `{L : PyLibs}.

Definition lower (s : pystr) : pystr :=
  if forallb is_ascii s then List.map ascii_lower s else uni_lower s.

Definition upper_char (c : N) : pystr :=
  if is_ascii c then [ascii_upper c] else uni_upper c.

Definition upper (s : pystr) : pystr := flat_map upper_char s.

(** [\w]: alphanumeric or underscore. *)
Definition is_word (c : N) : bool :=
  if is_ascii c then ascii_alnum c || (c =? UNDERSCORE)%N else uni_alnum c.

(** ** Regular expressions

    The fragment of [re] that the patterns of [KEYWORD_TAGS] are written in. *)

#[warnings="-register-all"] Inductive regex :=
| RLit (s : pystr)            (* a literal run of characters *)
| RSet (cs : pystr)           (* [...] *)
| RSeq (r1 r2 : regex)
| RAlt (rs : list regex)      (* (r1|r2|...) *)
| ROpt (r : regex)            (* r? *)
| RWordB.                     (* \b *)

Definition is_word_opt (o : option N) : bool :=
  match o with Some c => is_word c | None => false end.

(** The character before the current position and the text from it on. *)
Definition cursor : Type := option N * pystr.

Fixpoint match_lit (l : pystr) (cur : cursor) : list cursor :=
  match l with
  | [] => [cur]
  | c :: l' =>
      match snd cur with
      | x :: t => if (x =? c)%N then match_lit l' (Some x, t) else []
      | [] => []
      end
  end.

(** All the ways [r] matches at the cursor, as the cursors after the match. *)
Fixpoint rmatch (r : regex) (cur : cursor) : list cursor :=
  match r with
  | RLit l => match_lit l cur
  | RSet cs =>
      match snd cur with
      | x :: t => if existsb (N.eqb x) cs then [(Some x, t)] else []
      | [] => []
      end
  | RSeq r1 r2 => flat_map (rmatch r2) (rmatch r1 cur)
  | RAlt rs => flat_map (fun r' => rmatch r' cur) rs
  | ROpt r' => rmatch r' cur ++ [cur]
  | RWordB =>
      if xorb (is_word_opt (fst cur)) (is_word_opt (head (snd cur)))
      then [cur] else []
  end.

Definition matches_at (r : regex) (cur : cursor) : bool :=
  match rmatch r cur with [] => false | _ :: _ => true end.

Fixpoint search_from (r : regex) (prev : option N) (s : pystr) : bool :=
  matches_at r (prev, s) ||
  match s with
  | [] => false
  | c :: t => search_from r (Some c) t
  end.

(** [re.search(pat, text)] as a truth value. *)
Definition re_search (r : regex) (text : pystr) : bool :=
  search_from r None text.

Definition lit (s : string) : regex := RLit (py s).
Definition cls (s : string) : regex := RSet (py s).
Definition rseq (rs : list regex) : regex := foldr RSeq (RLit []) rs.

(** [\b(a1|a2|...)\b] *)
Definition bounded (alts : list regex) : regex :=
  RSeq RWordB (RSeq (RAlt alts) RWordB).

(** [KEYWORD_TAGS], in the order the dictionary literal lists its keys. *)
Definition KEYWORD_TAGS : list (regex * pystr) :=
  [ (* \b(xau|gold)\b *)
    (bounded [lit "xau"; lit "gold"], py "#XAU");
    (* \b(silver|xag)\b *)
    (bounded [lit "silver"; lit "xag"], py "#XAG");
    (* \b(dxy|us dollar|greenback|usd index|dollar index)\b *)
    (bounded [lit "dxy"; lit "us dollar"; lit "greenback"; lit "usd index";
              lit "dollar index"], py "#DXY");
    (* \b(eur/usd|eurusd|euro)\b *)
    (bounded [lit "eur/usd"; lit "eurusd"; lit "euro"], py "#EURUSD");
    (* \b(usd/jpy|usdjpy|yen)\b *)
    (bounded [lit "usd/jpy"; lit "usdjpy"; lit "yen"], py "#USDJPY");
    (* \b(gbp/usd|gbpusd|sterling|pound)\b *)
    (bounded [lit "gbp/usd"; lit "gbpusd"; lit "sterling"; lit "pound"],
     py "#GBPUSD");
    (* \b(wti|brent|crude|oil)\b *)
    (bounded [lit "wti"; lit "brent"; lit "crude"; lit "oil"], py "#OIL");
    (* \b(copper)\b *)
    (bounded [lit "copper"], py "#HG");
    (* \b(10[- ]?year|10y|ust10|ust 10|ten[- ]year|treasury yield|yields?)\b *)
    (bounded [rseq [lit "10"; ROpt (cls "- "); lit "year"]; lit "10y";
              lit "ust10"; lit "ust 10";
              rseq [lit "ten"; cls "- "; lit "year"]; lit "treasury yield";
              rseq [lit "yield"; ROpt (lit "s")]], py "#UST10Y");
    (* \b(2[- ]?year|2y|ust2)\b *)
    (bounded [rseq [lit "2"; ROpt (cls "- "); lit "year"]; lit "2y";
              lit "ust2"], py "#UST2Y");
    (* \b(cpi|ppi|pce|core pce|payrolls|nfp|unemployment)\b *)
    (bounded [lit "cpi"; lit "ppi"; lit "pce"; lit "core pce"; lit "payrolls";
              lit "nfp"; lit "unemployment"], py "#DATA");
    (* \b(fed|powell|fomc|dot plot|hike|cut|rate decision)\b *)
    (bounded [lit "fed"; lit "powell"; lit "fomc"; lit "dot plot"; lit "hike";
              lit "cut"; lit "rate decision"], py "#Fed");
    (* \b(ecb|lagarde|boj|boe|snb|rba|boc)\b *)
    (bounded [lit "ecb"; lit "lagarde"; lit "boj"; lit "boe"; lit "snb";
              lit "rba"; lit "boc"], py "#CB");
    (* \b(risk[- ]?on|risk[- ]?off|sentiment)\b *)
    (bounded [rseq [lit "risk"; ROpt (cls "- "); lit "on"];
              rseq [lit "risk"; ROpt (cls "- "); lit "off"];
              lit "sentiment"], py "#RISK") ].

(** ** [_extract_tags] *)

(** First loop: the tag of every pattern found in the text, appended in
    table order. *)
Definition collect_tags (table : list (regex * pystr)) (text : pystr)
  : list pystr :=
  fold_left (fun tags '(pat, tag) =>
               if re_search pat text then tags ++ [tag] else tags)
            table [].

(** Second loop: one step of the [seen] / [ordered] scan. *)
Definition dedup_step (st : gset pystr * list pystr) (t : pystr)
  : gset pystr * list pystr :=
  let '(seen, ordered) := st in
  if decide (t ∈ seen) then st else ({[t]} ∪ seen, ordered ++ [t]).

Definition dedup_ordered (tags : list pystr) : list pystr :=
  snd (fold_left dedup_step tags (∅, [])).

Definition _extract_tags (text : pystr) : list pystr :=
  let tags := collect_tags KEYWORD_TAGS (lower text) in
  dedup_ordered tags.

(** ** [_html_to_text] *)

Definition MAX_SUMMARY_CHARS : nat := 220%nat.

(** [re.sub] for a pattern that matches whole runs of whitespace: the text is
    scanned left to right, [run] holds the whitespace seen since the last
    other character, and [flush] decides what a finished run becomes. *)
Fixpoint sub_runs (flush : pystr -> pystr) (run : pystr) (s : pystr) : pystr :=
  match s with
  | [] => flush run
  | c :: t =>
      if is_space c then sub_runs flush (run ++ [c]) t
      else flush run ++ c :: sub_runs flush [] t
  end.

(** [re.sub(r"\s*\n\s*", "\n", text)]: a run of whitespace that holds a
    newline becomes one newline. *)
Definition sub_newlines (text : pystr) : pystr :=
  sub_runs (fun run => if existsb (N.eqb NEWLINE) run then [NEWLINE] else run)
           [] text.

(** [re.sub(r"\s{2,}", " ", text)]: a run of two or more whitespace
    characters becomes one space. *)
Definition sub_spaces (text : pystr) : pystr :=
  sub_runs (fun run => if (2 <=? length run)%nat then [SPACE] else run) [] text.

Definition _html_to_text (html : pystr) : pystr :=
  if negb (truthy html) then []
  else
    let text := soup_get_text html in
    let text := html_unescape text in
    let text := sub_newlines text in
    let text := strip (sub_spaces text) in
    if (MAX_SUMMARY_CHARS <? length text)%nat
    then rstrip (firstn MAX_SUMMARY_CHARS text) ++ [ELLIPSIS]
    else text.

(** The text [_html_to_text] holds when it reaches the length test (the
    empty string when it returned before). *)
Definition summary_text (html : pystr) : pystr :=
  if negb (truthy html) then []
  else strip (sub_spaces (sub_newlines (html_unescape (soup_get_text html)))).

(** ** [_section_tag_from_url] *)

Definition is_slash (c : N) : bool := (c =? SLASH)%N.

Definition _section_tag_from_url (link : pystr) : option pystr :=
  match urlparse_path link with
  | Some p =>
      let path := strip_by is_slash p in
      let first := before_first SLASH path in
      if truthy first
      then Some (upper (HASH :: replace_char HYPHEN UNDERSCORE first))
      else None
  | None => None          (* the exception is swallowed *)
  end.

(** ** Date resolution: [_coerce_dt] and [_to_ny] *)

(** Truthiness of an optional [struct_time] (a tuple). *)
Definition truthy_struct (o : option (list Z)) : bool :=
  match o with Some (_ :: _) => true | _ => false end.

Definition _coerce_dt (s : pystr) (fallback_struct : option (list Z))
  : option datetime :=
  if negb (truthy s) && negb (truthy_struct fallback_struct) then None
  else
    match (if truthy s then dtparse_parse s else None) with
    | Some dt => Some dt
    | None =>
        match fallback_struct with
        | Some (f :: fs) => datetime_utc (firstn 6 (f :: fs))
        | _ => None
        end
    end.

(** An offset that a datetime may report: strictly between minus one day
    and one day. *)
Definition utcoffset_in_range (o : Z) : bool :=
  (- US_PER_DAY <? o) && (o <? US_PER_DAY).

(** [_to_ny]: a naive datetime is taken as UTC.  [astimezone] first asks the
    datetime for its offset, which is a [ValueError] for an offset of a day
    or more; it then goes through the UTC instant and fails with an
    [OverflowError] when a step leaves the datetime range. *)
Definition _to_ny (dt : datetime) : result datetime :=
  let off := match utcoffset dt with Some o => o | None => 0 end in
  if utcoffset_in_range off then
    let utc := wall dt - off in
    if datetime_in_range utc then
      let w := utc + ny_utcoffset utc in
      if datetime_in_range w
      then Ok {| wall := w; utcoffset := Some (ny_utcoffset utc) |}
      else Raise OverflowError
    else Raise OverflowError
  else Raise ValueError.

(** A datetime that cannot be read in New York: its offset is a day or
    more, or its UTC instant, or the New York reading of that instant, lies
    outside the datetime range. *)
Definition beyond_new_york (dt : datetime) : Prop :=
  let off := default 0 (utcoffset dt) in
  let utc := wall dt - off in
  ¬ (- US_PER_DAY < off < US_PER_DAY)
  ∨ ¬ (0 ≤ utc ≤ DATETIME_MAX)
  ∨ ¬ (0 ≤ utc + ny_utcoffset utc ≤ DATETIME_MAX).

(** ** Items and [parse_feed] *)

Record Item := {
  title : pystr;
  link : pystr;
  published_ny : option pystr;
  tags : list pystr;
  summary : pystr
}.

Definition py_or_struct (a b : option (list Z)) : option (list Z) :=
  if truthy_struct a then a else b.

(** [sec and sec not in tags] then [tags.insert(0, sec)]. *)
Definition add_section_tag (sec : option pystr) (tags : list pystr)
  : list pystr :=
  match sec with
  | Some s =>
      if truthy s && negb (bool_decide (s ∈ tags)) then s :: tags else tags
  | None => tags
  end.

(** The datetime an entry resolves to: [_coerce_dt] on its date text and
    its structured date, as the loop of [parse_feed] calls it. *)
Definition entry_datetime (e : RawEntry) : option datetime :=
  _coerce_dt
    (or_empty (py_or (py_or (e_published e) (e_updated e)) (Some [])))
    (py_or_struct (e_published_parsed e) (e_updated_parsed e)).

(** The body of the loop over [fp.entries]. *)
Definition normalize_entry (e : RawEntry) : result Item :=
  let dt_raw :=
    or_empty (py_or (py_or (e_published e) (e_updated e)) (Some [])) in
  let dt_struct := py_or_struct (e_published_parsed e) (e_updated_parsed e) in
  dt_ny ← match _coerce_dt dt_raw dt_struct with
           | Some dt => d ← _to_ny dt; Ok (Some (strftime_ymd_hm (wall d)))
           | None => Ok None
           end;
  let title := strip (or_empty (e_title e)) in
  let summary := _html_to_text (or_empty (e_summary e)) in
  let link := strip (or_empty (e_link e)) in
  let all_text := title ++ [SPACE] ++ summary in
  let tags := _extract_tags all_text in
  let sec := _section_tag_from_url link in
  let tags := add_section_tag sec tags in
  Ok {| title := title; link := link; published_ny := dt_ny; tags := tags;
        summary := summary |}.

Fixpoint normalize_all (es : list RawEntry) : result (list Item) :=
  match es with
  | [] => Ok []
  | e :: es' =>
      it ← normalize_entry e;
      its ← normalize_all es';
      Ok (it :: its)
  end.

(** [lambda x: x.published_ny or ""] *)
Definition sort_key (it : Item) : pystr := or_empty (published_ny it).

(** [list.sort(key=..., reverse=True)]: a stable sort, largest key first;
    items with equal keys keep the order they had. *)
Fixpoint insert_desc (x : Item) (l : list Item) : list Item :=
  match l with
  | [] => [x]
  | y :: l' =>
      if str_lt (sort_key x) (sort_key y) then y :: insert_desc x l'
      else x :: l
  end.

Definition sort_desc (l : list Item) : list Item := foldr insert_desc [] l.

(** [x] may stand before [y] in the output: its key is not smaller. *)
Definition key_ge (x y : Item) : Prop :=
  str_le (sort_key y) (sort_key x) = true.

(** Items with the key [k], in the order of the list. *)
Definition with_key (k : pystr) (l : list Item) : list Item :=
  List.filter (fun it => bool_decide (sort_key it = k)) l.

Definition parse_feed (xml_text : pystr) : result (list Item) :=
  items ← normalize_all (feedparser_entries xml_text);
  Ok (sort_desc items).

(** ** [filter_items] *)

(** [timedelta(hours=h)], in microseconds. *)
Definition timedelta_hours (h : Z) : result Z :=
  let us := h * US_PER_HOUR in
  if Z.abs (us / US_PER_DAY) <=? TIMEDELTA_MAX_DAYS then Ok us
  else Raise OverflowError.

(** [now - delta] on a datetime. *)
Definition datetime_sub (now delta : Z) : result Z :=
  let w := now - delta in
  if datetime_in_range w then Ok w else Raise OverflowError.

(** The condition of the comprehension.  Both sides of [>=] carry the same
    [tzinfo] object [NY_TZ] (the parsed value by [replace], the cutoff from
    [datetime.now(NY_TZ)]), so Python compares their wall-clock readings. *)
Definition is_recent (cutoff : Z) (it : Item) : result bool :=
  match published_ny it with
  | Some s =>
      if truthy s then
        match dtparse_parse s with
        | Some dt => Ok (cutoff <=? wall dt)
        | None => Raise DateParseError
        end
      else Ok false
  | None => Ok false
  end.

Fixpoint keep_recent (cutoff : Z) (items : list Item) : result (list Item) :=
  match items with
  | [] => Ok []
  | it :: rest =>
      keep ← is_recent cutoff it;
      kept ← keep_recent cutoff rest;
      Ok (if (keep : bool) then it :: kept else kept)
  end.

(** [items[:n]] *)
Definition slice_to {A} (n : Z) (l : list A) : list A :=
  if 0 <=? n then firstn (Z.to_nat n) l
  else firstn (Z.to_nat (Z.of_nat (length l) + n)) l.

(** Truthiness of an [Optional[int]]: [None] and [0] are falsy. *)
Definition truthy_int (o : option Z) : bool :=
  match o with Some n => negb (n =? 0) | None => false end.

(** [now] is the wall-clock reading of [datetime.now(NY_TZ)]. *)
Definition filter_items (now : Z) (items : list Item)
    (hours limit : option Z) : result (list Item) :=
  items ← match hours with
           | Some h =>
               if negb (h =? 0) then
                 delta ← timedelta_hours h;
                 cutoff ← datetime_sub now delta;
                 keep_recent cutoff items
               else Ok items
           | None => Ok items
           end;
  Ok (match limit with
      | Some n => if negb (n =? 0) then slice_to n items else items
      | None => items
      end).

(** The limit, as the second [if] of [filter_items] applies it. *)
Definition limited (limit : option Z) (l : list Item) : list Item :=
  match limit with
  | Some n => if negb (n =? 0) then slice_to n l else l
  | None => l
  end.

(** An item that passes the window test at [cutoff]. *)
Definition dated_since (cutoff : Z) (it : Item) : Prop :=
  ∃ s dt, published_ny it = Some s ∧ s ≠ []
          ∧ dtparse_parse s = Some dt ∧ cutoff ≤ wall dt.

(** Hours for which the cutoff of the window can be computed at [now]. *)
Definition window_computable (now : Z) (hours : option Z) : Prop :=
  match hours with
  | Some h => 1 ≤ h ≤ 72 ∧ 72 * US_PER_HOUR ≤ now ≤ DATETIME_MAX
  | None => True
  end.

(** The cutoff of a window of [h] hours can be computed at [now]: the
    timedelta and the datetime stay in range. *)
Definition cutoff_in_range (now h : Z) : Prop :=
  Z.abs (h * US_PER_HOUR / US_PER_DAY) ≤ TIMEDELTA_MAX_DAYS
  ∧ 0 ≤ now - h * US_PER_HOUR ≤ DATETIME_MAX.

(** A dated item whose date the parser rejects. *)
Definition unparsable (it : Item) : Prop :=
  ∃ s, published_ny it = Some s ∧ s ≠ [] ∧ dtparse_parse s = None.

(** ** Shapes of text *)

(** No whitespace at either end. *)
Definition trimmed (s : pystr) : Prop :=
  (∀ c, head s = Some c → is_space c = false)
  ∧ (∀ c, last s = Some c → is_space c = false).

(** No two whitespace characters in a row. *)
Fixpoint single_spaced (s : pystr) : bool :=
  match s with
  | a :: t =>
      match t with
      | b :: _ => negb (is_space a && is_space b) && single_spaced t
      | [] => true
      end
  | [] => true
  end.

(** ** [render_markdown] *)

Definition EM_DASH : N := 8212%N.    (* U+2014 *)
Definition BULLET : N := 8226%N.     (* U+2022, the list marker *)

(** [s.split(sep)] for a one-character separator: the pieces between the
    separators, at least one. *)
Fixpoint split_on (sep : N) (s : pystr) : list pystr :=
  match s with
  | [] => [[]]
  | c :: t =>
      if (c =? sep)%N then [] :: split_on sep t
      else match split_on sep t with
           | piece :: pieces => (c :: piece) :: pieces
           | [] => [[c]]
           end
  end.

(** [sep.join(l)] *)
Definition join (sep : pystr) (l : list pystr) : pystr :=
  match l with
  | [] => []
  | x :: rest => x ++ flat_map (fun y => sep ++ y) rest
  end.

(** Newline, bullet, space: the marker [_html_to_text] puts before a list
    item. *)
Definition is_list_marker (a b c : N) : bool :=
  (a =? NEWLINE)%N && (b =? BULLET)%N && (c =? SPACE)%N.

(** [s.replace(marker, indented)] where the marker is newline, bullet,
    space and [indented] is the marker with four spaces before the
    bullet: occurrences are replaced from the left. *)
Fixpoint reindent_bullets (s : pystr) : pystr :=
  match s with
  | a :: t =>
      match t with
      | b :: c :: t' =>
          if is_list_marker a b c
          then [NEWLINE; SPACE; SPACE; SPACE; SPACE; BULLET; SPACE]
               ++ reindent_bullets t'
          else a :: reindent_bullets t
      | _ => a :: reindent_bullets t
      end
  | [] => []
  end.

Definition md_title : pystr := py "# InvestingLive Feed Digest (NY time)".

(** The date under which an item is listed. *)
Definition md_date_part (it : Item) : option pystr :=
  if truthy_opt (published_ny it)
  then split_on SPACE (or_empty (published_ny it)) !! 0%nat
  else Some (py "Unknown").

(** The time shown for an item; [None] is the [IndexError] of taking the
    second piece of a date without a space. *)
Definition md_time_part (it : Item) : option pystr :=
  if truthy_opt (published_ny it)
  then split_on SPACE (or_empty (published_ny it)) !! 1%nat
  else Some (py "--:--").

Definition md_item_line (time_part : pystr) (it : Item) : pystr :=
  let tag_str :=
    if bool_decide (tags it = []) then [] else join [SPACE] (tags it) in
  let title := strip (replace_char NEWLINE SPACE (title it)) in
  py "- **" ++ time_part ++ py "** " ++ [EM_DASH] ++ py " [" ++ title
  ++ py "](" ++ link it ++ py ")  " ++ tag_str.

(** The body of the loop: what is printed for the items, each element one
    call of [print], with the date of the last heading carried along.
    [None] stands for the [IndexError]. *)
Fixpoint md_prints (current_date : option pystr) (items : list Item)
  : option (list pystr) :=
  match items with
  | [] => Some []
  | it :: rest =>
      date_part ← md_date_part it;
      let heading :=
        if bool_decide (Some date_part = current_date) then []
        else [[NEWLINE] ++ py "## " ++ date_part] in
      time_part ← md_time_part it;
      let line := md_item_line time_part it in
      let nested :=
        if truthy (summary it)
        then [py "  - " ++ reindent_bullets (summary it)] else [] in
      more ← md_prints (Some date_part) rest;
      Some (heading ++ [line] ++ nested ++ more)
  end.

(** [print(s, file=out)] writes [s] and a newline; the value of the buffer is
    stripped at the end. *)
Definition render_markdown (items : list Item) : option pystr :=
  prints ← md_prints None items;
  Some (strip (flat_map (fun s => s ++ [NEWLINE])
                 ((md_title ++ [NEWLINE]) :: prints))).

(** The headings among what is printed: the only calls whose text starts
    with a newline. *)
Definition md_headings (prints : list pystr) : list pystr :=
  List.filter (fun s => bool_decide (head s = Some NEWLINE)) prints.

(** A dated item whose date has no space in it. *)
Definition undivided (it : Item) : Prop :=
  ∃ s, published_ny it = Some s ∧ s ≠ [] ∧ SPACE ∉ s.

(** The text of the heading for a date. *)
Definition md_heading (date_part : pystr) : pystr :=
  [NEWLINE] ++ py "## " ++ date_part.

(** The date of an item as the document shows it. *)
Definition md_date (it : Item) : pystr :=
  if truthy_opt (published_ny it)
  then before_first SPACE (or_empty (published_ny it))
  else py "Unknown".

(** Dates after which a heading is printed: those that differ from the
    date before them. *)
Fixpoint date_changes (current : option pystr) (dates : list pystr)
  : list pystr :=
  match dates with
  | [] => []
  | d :: rest =>
      (if bool_decide (Some d = current) then [] else [d])
      ++ date_changes (Some d) rest
  end.

(** Equal dates stand next to each other. *)
Fixpoint grouped (dates : list pystr) : Prop :=
  match dates with
  | [] => True
  | d :: rest => (d ∈ rest → head rest = Some d) ∧ grouped rest
  end.

(** ** The cache store: [_load_cache] and [_save_cache] *)

Definition _load_cache (f : cache_file) : json_dict :=
  match f with
  | FileJson d => d
  | FileUnreadable => ∅      (* the exception is swallowed *)
  | FileAbsent => ∅
  end.

Definition _save_cache (how : write_outcome) (new_cache : json_dict)
    (f : cache_file) : cache_file :=
  match how with
  | WriteOk => FileJson new_cache
  | OpenFails => f
  | DumpFails => FileUnreadable
  end.

(** [d.get(k)]: [None] for a missing key as for a [null] value. *)
Definition dict_get (d : json_dict) (k : string) : option pystr :=
  mjoin (d !! k).

(** ** [polite_fetch] *)

Definition FEED_URL : pystr := py "https://investinglive.com/feed".

Definition UA : pystr :=
  py "Mozilla/5.0 (Windows NT 10.0; Win64; x64) AppleWebKit/537.36 "
  ++ py "(KHTML, like Gecko) Chrome/123.0.0.0 Safari/537.36".

Definition base_headers : gmap string pystr :=
  {[ "User-Agent"%string := UA;
     "Accept"%string :=
       py "application/rss+xml, application/xml;q=0.9, */*;q=0.8";
     "Accept-Language"%string := py "en-US,en;q=0.9";
     "Connection"%string := py "keep-alive" ]}.

(** [if v := cache.get(k): headers[name] = v] *)
Definition with_validator (name : string) (v : option pystr)
    (headers : gmap string pystr) : gmap string pystr :=
  match v with
  | Some s => if truthy s then <[name := s]> headers else headers
  | None => headers
  end.

Definition request_headers (cache : json_dict) : gmap string pystr :=
  with_validator "If-Modified-Since" (dict_get cache "last_modified")
    (with_validator "If-None-Match" (dict_get cache "etag") base_headers).

Definition new_cache_record (w : World) (cache : json_dict) (r : response)
  : json_dict :=
  {[ "etag"%string := py_or (hdr_etag r) (dict_get cache "etag");
     "last_modified"%string :=
       py_or (hdr_last_modified r) (dict_get cache "last_modified");
     "fetched_at"%string := Some (utcnow_isoformat w) ]}.

Definition sleep (backoff tenths : Z) (st : Sys) : Sys :=
  {| cache := cache st;
     slept := slept st
              ++ [{| nap_backoff := backoff; nap_tenths := tenths |}] |}.

(** The state after some more sleeping, the cache file as it was. *)
Definition slept_more (st : Sys) (naps : list nap) : Sys :=
  {| cache := cache st; slept := slept st ++ naps |}.

(** [min(backoff * 2, 30)] *)
Definition next_backoff (backoff : Z) : Z := Z.min (backoff * 2) 30.

(** The [for attempt in range(1, max_retries + 1)] loop, [n] iterations
    from [attempt] on; falling out of the loop reaches the final
    [return None]. *)
Fixpoint fetch_loop (w : World) (headers : gmap string pystr)
    (cache0 : json_dict) (url : pystr) (max_retries : Z) (n : nat)
    (attempt backoff : Z) (st : Sys)
  : result (option pystr) * Sys :=
  match n with
  | O => (Ok None, st)
  | S n' =>
      let continue b st' :=
        fetch_loop w headers cache0 url max_retries n' (attempt + 1) b st' in
      (* the [except httpx.HTTPError] handler *)
      let on_http_error :=
        if attempt =? max_retries then (Raise HTTPError, st)
        else continue (next_backoff backoff) (sleep backoff 0 st) in
      match client_get w headers url attempt with
      | Responds r =>
          if status_code r =? 304 then (Ok None, st)
          else if status_code r =? 200 then
            (Ok (Some (r_text r)),
             {| cache := _save_cache (cache_write w)
                           (new_cache_record w cache0 r) (cache st);
                slept := slept st |})
          else if (status_code r =? 429) || (status_code r =? 503) then
            continue (next_backoff backoff) (sleep backoff attempt st)
          else if status_raises (status_code r) then on_http_error
          else continue backoff st
      | Throws HTTPError => on_http_error
      | Throws e => (Raise e, st)
      end
  end.

Definition polite_fetch (w : World) (url : pystr) (max_retries : Z) (st : Sys)
  : result (option pystr) * Sys :=
  let cache0 := _load_cache (cache st) in
  fetch_loop w (request_headers cache0) cache0 url max_retries
             (Z.to_nat max_retries) 1 1 st.

(** What a stored validator becomes in the request: a header when it is a
    non-empty string, nothing otherwise. *)
Definition validator_header (v : option pystr) : option pystr :=
  if truthy_opt v then v else None.

(** An attempt after which the loop goes on when it is not the last one:
    the answer is neither 304 nor 200 and no exception other than an
    [httpx.HTTPError] is raised. *)
Definition retried (w : World) (headers : gmap string pystr) (url : pystr)
    (attempt : Z) : bool :=
  match client_get w headers url attempt with
  | Responds r => negb (status_code r =? 304) && negb (status_code r =? 200)
  | Throws HTTPError => true
  | Throws _ => false
  end.

(** An attempt answered 429 or 503. *)
Definition busy (w : World) (headers : gmap string pystr) (url : pystr)
    (attempt : Z) : bool :=
  match client_get w headers url attempt with
  | Responds r => (status_code r =? 429) || (status_code r =? 503)
  | Throws _ => false
  end.

(** Two worlds with the same server. *)
Definition same_server (w1 w2 : World) : Prop :=
  ∀ headers url attempt,
    client_get w1 headers url attempt = client_get w2 headers url attempt.

(** ** [get_digest] *)

Definition get_digest (w : World) (url : pystr) (hours : option Z) (limit : Z)
    (st : Sys) : result (list Item) * Sys :=
  let '(xml, st') := polite_fetch w url 5 st in
  match xml with
  | Ok None => (Ok [], st')
  | Ok (Some xml_text) =>
      (items ← parse_feed xml_text;
       filter_items (now_ny w) items hours (Some limit), st')
  | Raise e => (Raise e, st')
  end.

End Pipeline.

(** * Test doubles

    Stand-ins for the libraries, a canned feed and mock transports, used to
    run the pipeline on concrete inputs. *)

Module Mock.

Definition HOUR0 : Z := 17736144.   (* 2024-05-01 00:00, in hours *)

Definition at_hm (h m : Z) : Z := (HOUR0 + h) * US_PER_HOUR + m * 60000000.

(** The three date strings the canned feed and its items use. *)
Definition parse_date (s : pystr) : option datetime :=
  if bool_decide (s = py "Wed, 01 May 2024 14:00:00 GMT")
  then Some {| wall := at_hm 14 0; utcoffset := Some 0 |}
  else if bool_decide (s = py "Tue, 30 Apr 2024 12:30:00 GMT")
  then Some {| wall := at_hm (-12) 30; utcoffset := Some 0 |}
  else if bool_decide (s = py "2024-05-01 10:00")
  then Some {| wall := at_hm 10 0; utcoffset := None |}
  else if bool_decide (s = py "2024-04-30 08:30")
  then Some {| wall := at_hm (-16) 30; utcoffset := None |}
  else None.

Definition format_date (w : Z) : pystr :=
  if w =? at_hm 10 0 then py "2024-05-01 10:00"
  else if w =? at_hm (-16) 30 then py "2024-04-30 08:30"
  else py "1970-01-01 00:00".

Fixpoint after_double_slash (s : pystr) : option pystr :=
  match s with
  | a :: t =>
      match t with
      | b :: t' => if is_slash a && is_slash b then Some t'
                   else after_double_slash t
      | [] => None
      end
  | [] => None
  end.

Fixpoint from_first_slash (s : pystr) : pystr :=
  match s with
  | [] => []
  | c :: t => if is_slash c then s else from_first_slash t
  end.

(** The path of a plain [scheme://host/path?query#fragment] address. *)
Definition path_of (url : pystr) : option pystr :=
  let u := before_first 63 (before_first 35 url) in
  match after_double_slash u with
  | Some rest => Some (from_first_slash rest)
  | None => Some u
  end.

Definition entry_ecb : RawEntry :=
  {| e_published := Some (py "Wed, 01 May 2024 14:00:00 GMT");
     e_updated := None;
     e_published_parsed := None;
     e_updated_parsed := None;
     e_title := Some (py "ECB preview: Lagarde to hold ");
     e_summary := Some (py "Gold rallies as Fed signals cut");
     e_link := Some (py "https://investinglive.com/central-bank/ecb-preview") |}.

Definition entry_oil : RawEntry :=
  {| e_published := None;
     e_updated := Some (py "Tue, 30 Apr 2024 12:30:00 GMT");
     e_published_parsed := None;
     e_updated_parsed := None;
     e_title := Some (py "Oil slips");
     e_summary := None;
     e_link := Some (py "https://investinglive.com/commodities/oil-slips?x=1") |}.

Definition entry_undated : RawEntry :=
  {| e_published := None;
     e_updated := None;
     e_published_parsed := None;
     e_updated_parsed := None;
     e_title := Some (py "Untitled note");
     e_summary := Some (py "   ");
     e_link := None |}.

Definition feed_xml : pystr := py "<rss>three entries</rss>".

Definition entries_of (xml : pystr) : list RawEntry :=
  if bool_decide (xml = feed_xml) then [entry_undated; entry_oil; entry_ecb]
  else [].

Definition libs : PyLibs :=
  {| uni_lower := fun s => s;
     uni_upper := fun c => [c];
     uni_alnum := fun _ => false;
     feedparser_entries := entries_of;
     dtparse_parse := parse_date;
     datetime_utc := fun _ => None;
     ny_utcoffset := fun _ => (-4) * US_PER_HOUR;
     strftime_ymd_hm := format_date;
     soup_get_text := fun s => s;
     html_unescape := fun s => s;
     urlparse_path := path_of;
     status_raises := fun code => negb ((200 <=? code) && (code <=? 299)) |}.

Definition item_ecb : Item :=
  {| title := py "ECB preview: Lagarde to hold";
     link := py "https://investinglive.com/central-bank/ecb-preview";
     published_ny := Some (py "2024-05-01 10:00");
     tags := [py "#CENTRAL_BANK"; py "#XAU"; py "#Fed"; py "#CB"];
     summary := py "Gold rallies as Fed signals cut" |}.

Definition item_oil : Item :=
  {| title := py "Oil slips";
     link := py "https://investinglive.com/commodities/oil-slips?x=1";
     published_ny := Some (py "2024-04-30 08:30");
     tags := [py "#COMMODITIES"; py "#OIL"];
     summary := [] |}.

Definition item_undated : Item :=
  {| title := py "Untitled note";
     link := [];
     published_ny := None;
     tags := [];
     summary := [] |}.

Definition items : list Item := [item_ecb; item_oil; item_undated].

Definition answer (code : Z) (etag : option pystr) (body : pystr) : outcome :=
  Responds {| status_code := code; hdr_etag := etag;
              hdr_last_modified := None; r_text := body |}.

Definition clock : pystr := py "2024-05-01T16:00:00+00:00".

(** A server that answers 503 to every attempt. *)
Definition busy_world : World :=
  {| client_get := fun _ _ _ => answer 503 None [];
     utcnow_isoformat := clock;
     cache_write := WriteOk;
     now_ny := at_hm 12 0 |}.

(** A server that answers 503 once and then revalidates: 304 when the
    request carries the entity tag [v1], the feed otherwise. *)
Definition revalidating_world : World :=
  {| client_get := fun headers _ attempt =>
       if attempt =? 1 then answer 503 None []
       else if bool_decide (headers !! "If-None-Match"%string = Some (py "v1"))
       then answer 304 None []
       else answer 200 (Some (py "v1")) feed_xml;
     utcnow_isoformat := clock;
     cache_write := WriteOk;
     now_ny := at_hm 12 0 |}.

(** A server that answers the canned feed at once. *)
Definition fresh_world : World :=
  {| client_get := fun _ _ _ => answer 200 (Some (py "v2")) feed_xml;
     utcnow_isoformat := clock;
     cache_write := WriteOk;
     now_ny := at_hm 12 0 |}.

(** A server whose feed has no entries. *)
Definition empty_world : World :=
  {| client_get := fun _ _ _ => answer 200 None (py "<rss/>");
     utcnow_isoformat := clock;
     cache_write := WriteOk;
     now_ny := at_hm 12 0 |}.

Definition no_cache : Sys := {| cache := FileAbsent; slept := [] |}.

(** A cache left by an earlier fetch that was answered the tag [v1]. *)
Definition stored : Sys :=
  {| cache := FileJson {[ "etag"%string := Some (py "v1");
                          "last_modified"%string := None;
                          "fetched_at"%string :=
                            Some (py "2024-05-01T15:00:00+00:00") ]};
     slept := [] |}.

(** A transport that fails on every attempt. *)
Definition failing_world : World :=
  {| client_get := fun _ _ _ => Throws HTTPError;
     utcnow_isoformat := clock;
     cache_write := WriteOk;
     now_ny := at_hm 12 0 |}.

(** A server that answers 503 once; the client then breaks in a way that is
    not an [httpx.HTTPError]. *)
Definition broken_world : World :=
  {| client_get := fun _ _ attempt =>
       if attempt =? 1 then answer 503 None [] else Throws ClientError;
     utcnow_isoformat := clock;
     cache_write := WriteOk;
     now_ny := at_hm 12 0 |}.

(** An entry dated, by its structured date only, at the first instant a
    datetime can hold. *)
Definition entry_early : RawEntry :=
  {| e_published := None;
     e_updated := None;
     e_published_parsed := Some [1; 1; 1; 0; 0; 0; 0; 1; 0];
     e_updated_parsed := None;
     e_title := Some (py "Archive");
     e_summary := None;
     e_link := None |}.

(** The libraries on a feed that holds [entry_early]. *)
Definition early_libs : PyLibs :=
  {| uni_lower := fun s => s;
     uni_upper := fun c => [c];
     uni_alnum := fun _ => false;
     feedparser_entries := fun _ => [entry_early];
     dtparse_parse := parse_date;
     datetime_utc := fun fields =>
       if bool_decide (fields = [1; 1; 1; 0; 0; 0])
       then Some {| wall := 0; utcoffset := Some 0 |} else None;
     ny_utcoffset := fun _ => (-4) * US_PER_HOUR;
     strftime_ymd_hm := format_date;
     soup_get_text := fun s => s;
     html_unescape := fun s => s;
     urlparse_path := path_of;
     status_raises := fun code => negb ((200 <=? code) && (code <=? 299)) |}.

(** An item whose date the parser of the test doubles rejects, and one
    whose date has no time. *)
Definition item_garbled : Item :=
  {| title := py "Rumour"; link := [];
     published_ny := Some (py "yesterday evening");
     tags := []; summary := [] |}.

Definition item_dateonly : Item :=
  {| title := py "Holiday"; link := [];
     published_ny := Some (py "2024-05-01");
     tags := []; summary := [] |}.

End Mock.


(** * Properties *)

Section TagFacts.

Context `{L : PyLibs}.

Lemma collect_tags_fold (table : list (regex * pystr)) (text : pystr) :
  ∀ acc,
    fold_left (fun tags '(pat, tag) =>
                 if re_search pat text then tags ++ [tag] else tags) table acc
    = acc ++ List.map snd
               (List.filter (fun pt => re_search (fst pt) text) table).
Proof.
  induction table as [|[pat tag] table IH]; intros acc; simpl.
  - by rewrite app_nil_r.
  - rewrite IH. destruct (re_search pat text); simpl; [|done].
    by rewrite <- app_assoc.
Qed.

Lemma collect_tags_filter (table : list (regex * pystr)) (text : pystr) :
  collect_tags table text
  = List.map snd (List.filter (fun pt => re_search (fst pt) text) table).
Proof. unfold collect_tags. by rewrite collect_tags_fold. Qed.

(** The scan keeps [seen] equal to the set of [ordered], never repeats a
    tag, and changes nothing on a list without repetition. *)
Lemma dedup_scan (l : list pystr) :
  ∀ (seen : gset pystr) (ordered : list pystr),
    (∀ x, x ∈ seen ↔ x ∈ ordered) →
    NoDup ordered →
    let r := fold_left dedup_step l (seen, ordered) in
    NoDup (snd r)
    ∧ (∀ x, x ∈ snd r ↔ x ∈ ordered ∨ x ∈ l)
    ∧ (NoDup (ordered ++ l) → snd r = ordered ++ l).
Proof.
  induction l as [|t l IH]; intros seen ordered Hseen Hnd; simpl.
  - split; [done|]. split; [|by rewrite app_nil_r].
    intros x. rewrite elem_of_nil. tauto.
  - destruct (decide (t ∈ seen)) as [Hin|Hout].
    + destruct (IH seen ordered Hseen Hnd) as (H1 & H2 & H3).
      split; [done|]. split.
      * intros x. rewrite H2, elem_of_cons.
        split; [tauto|]. intros [?|[->|?]]; [tauto| |tauto].
        left. by apply Hseen.
      * intros Hno. exfalso. apply NoDup_app in Hno as (_ & Hdisj & _).
        apply (Hdisj t); [by apply Hseen | by left].
    + assert (Hseen' : ∀ x, x ∈ ({[t]} ∪ seen : gset pystr) ↔ x ∈ ordered ++ [t]).
      { intros x. rewrite elem_of_union, elem_of_singleton, elem_of_app,
          list_elem_of_singleton, Hseen. tauto. }
      assert (Hnd' : NoDup (ordered ++ [t])).
      { apply NoDup_app. split; [done|]. split; [|apply NoDup_singleton].
        intros x Hx ->%list_elem_of_singleton. apply Hout. by apply Hseen. }
      destruct (IH _ _ Hseen' Hnd') as (H1 & H2 & H3).
      split; [done|]. split.
      * intros x. rewrite H2, elem_of_app, list_elem_of_singleton, elem_of_cons.
        tauto.
      * intros Hno. rewrite H3; rewrite <- app_assoc; done.
Qed.

Lemma dedup_ordered_NoDup (l : list pystr) : NoDup (dedup_ordered l).
Proof.
  unfold dedup_ordered.
  apply (dedup_scan l ∅ []); [|apply NoDup_nil_2].
  intros x. rewrite elem_of_nil. set_solver.
Qed.

Lemma dedup_ordered_elem (l : list pystr) (x : pystr) :
  x ∈ dedup_ordered l ↔ x ∈ l.
Proof.
  unfold dedup_ordered.
  destruct (dedup_scan l ∅ []) as (_ & H & _); [|apply NoDup_nil_2|].
  - intros y. rewrite elem_of_nil. set_solver.
  - rewrite H, elem_of_nil. tauto.
Qed.

Lemma dedup_ordered_id (l : list pystr) : NoDup l → dedup_ordered l = l.
Proof.
  intros Hl. unfold dedup_ordered.
  destruct (dedup_scan l ∅ []) as (_ & _ & H); [|apply NoDup_nil_2|by apply H].
  intros y. rewrite elem_of_nil. set_solver.
Qed.

Lemma NoDup_map_filter {A B} (f : A → B) (p : A → bool) (l : list A) :
  NoDup (List.map f l) → NoDup (List.map f (List.filter p l)).
Proof.
  induction l as [|a l IH]; simpl; [done|].
  intros [Hnot Hnd]%NoDup_cons. destruct (p a); simpl; [|by apply IH].
  apply NoDup_cons. split; [|by apply IH].
  intros Hin. apply Hnot.
  apply list_elem_of_In, in_map_iff in Hin as (a' & <- & Hin').
  apply list_elem_of_In, in_map_iff. exists a'. split; [done|].
  by apply filter_In in Hin' as [? _].
Qed.

Lemma keyword_tags_distinct : NoDup (List.map snd KEYWORD_TAGS).
Proof.
  apply (bool_decide_unpack (NoDup (List.map snd KEYWORD_TAGS))).
  vm_compute. exact I.
Qed.

Lemma extract_tags_filter (text : pystr) :
  _extract_tags text
  = List.map snd
      (List.filter (fun pt => re_search (fst pt) (lower text)) KEYWORD_TAGS).
Proof.
  unfold _extract_tags. rewrite collect_tags_filter.
  apply dedup_ordered_id, NoDup_map_filter, keyword_tags_distinct.
Qed.

Lemma extract_tags_NoDup (text : pystr) : NoDup (_extract_tags text).
Proof. apply dedup_ordered_NoDup. Qed.

Lemma extract_tags_in_table (text tag : pystr) :
  tag ∈ _extract_tags text → tag ∈ List.map snd KEYWORD_TAGS.
Proof.
  rewrite extract_tags_filter.
  intros (pt & <- & Hin)%list_elem_of_In%in_map_iff.
  apply list_elem_of_In, in_map. by apply filter_In in Hin as [? _].
Qed.

(** Word boundaries, optional characters and the order of the table. *)
Example extract_tags_inside_words :
  _extract_tags (py "Golden oilfield cutoff, refed") = [].
Proof. vm_compute. reflexivity. Qed.

Example extract_tags_optional_parts :
  _extract_tags (py "US 10 year yields slip, EUR/USD and risk-off")
  = [py "#EURUSD"; py "#UST10Y"; py "#RISK"].
Proof. vm_compute. reflexivity. Qed.

Example extract_tags_same_tag_once :
  _extract_tags (py "Fed: Powell says FOMC may cut, then hike")
  = [py "#Fed"].
Proof. vm_compute. reflexivity. Qed.

End TagFacts.

(** ** The order on strings *)

Section StringOrder.

Lemma str_compare_refl (a : pystr) : str_compare a a = Eq.
Proof.
  induction a as [|x a IH]; simpl; [done|]. by rewrite N.compare_refl.
Qed.

Lemma str_compare_antisym (a : pystr) :
  ∀ b, str_compare b a = CompOpp (str_compare a b).
Proof.
  induction a as [|x a IH]; intros [|y b]; simpl; try done.
  rewrite (N.compare_antisym x y).
  destruct (x ?= y)%N; simpl; [apply IH|done|done].
Qed.

Lemma str_lt_false_le (a b : pystr) : str_lt a b = false → str_le b a = true.
Proof.
  unfold str_lt, str_le. rewrite (str_compare_antisym a b).
  by destruct (str_compare a b).
Qed.

Lemma str_lt_le (a b : pystr) : str_lt a b = true → str_le a b = true.
Proof. unfold str_lt, str_le. by destruct (str_compare a b). Qed.

Lemma str_le_trans (a : pystr) :
  ∀ b c, str_le a b = true → str_le b c = true → str_le a c = true.
Proof.
  unfold str_le.
  induction a as [|x a IH]; intros [|y b] [|z c]; simpl; try done.
  destruct (N.compare_spec x y) as [->|Hxy|Hxy]; [| |done].
  - destruct (N.compare_spec y z) as [->|Hyz|Hyz]; [|done|done].
    apply IH.
  - intros _. destruct (N.compare_spec y z) as [->|Hyz|Hyz]; [| |done].
    + intros _. by apply N.compare_lt_iff in Hxy as ->.
    + intros _. assert (x < z)%N as ->%N.compare_lt_iff by lia. done.
Qed.

Lemma str_le_nil (a : pystr) : str_le [] a = true.
Proof. by destruct a. Qed.

Lemma str_le_nil_inv (a : pystr) : str_le a [] = true → a = [].
Proof. by destruct a. Qed.

End StringOrder.

(** ** Sorting and the entries behind the items *)

Section SortFacts.

Context `{L : PyLibs}.

Lemma insert_desc_perm (x : Item) (l : list Item) : insert_desc x l ≡ₚ x :: l.
Proof.
  induction l as [|y l IH]; simpl; [done|].
  destruct (str_lt (sort_key x) (sort_key y)); [|done].
  rewrite IH. apply perm_swap.
Qed.

Lemma sort_desc_perm (l : list Item) : sort_desc l ≡ₚ l.
Proof.
  induction l as [|x l IH]; simpl; [done|].
  rewrite insert_desc_perm. by rewrite IH.
Qed.

Lemma insert_desc_sorted (x : Item) (l : list Item) :
  StronglySorted key_ge l → StronglySorted key_ge (insert_desc x l).
Proof.
  induction 1 as [|y l Hs IH Hy]; simpl.
  - repeat constructor.
  - destruct (str_lt (sort_key x) (sort_key y)) eqn:Hlt.
    + constructor; [done|].
      rewrite insert_desc_perm. constructor; [|done].
      by apply str_lt_le.
    + apply str_lt_false_le in Hlt.
      constructor; [by constructor|].
      constructor; [done|].
      eapply Forall_impl; [exact Hy|].
      intros z Hz. unfold key_ge in *. by eapply str_le_trans.
Qed.

Lemma sort_desc_sorted (l : list Item) : StronglySorted key_ge (sort_desc l).
Proof.
  induction l as [|x l IH]; simpl; [constructor|].
  by apply insert_desc_sorted.
Qed.

Lemma normalize_all_Forall2 (es : list RawEntry) :
  ∀ its, normalize_all es = Ok its →
         Forall2 (fun e it => normalize_entry e = Ok it) es its.
Proof.
  induction es as [|e es IH]; simpl; intros its H.
  - injection H as <-. constructor.
  - destruct (normalize_entry e) as [it|] eqn:He; simpl in H; [|done].
    destruct (normalize_all es) as [its'|] eqn:Hes; simpl in H; [|done].
    injection H as <-. constructor; [done|]. by apply IH.
Qed.

(** Every item of a parsed feed is the normal form of one of its entries. *)
Lemma parse_feed_items (xml : pystr) (items : list Item) (it : Item) :
  parse_feed xml = Ok items → it ∈ items →
  ∃ e, e ∈ feedparser_entries xml ∧ normalize_entry e = Ok it.
Proof.
  unfold parse_feed. intros H Hin.
  destruct (normalize_all (feedparser_entries xml)) as [its|] eqn:Hn;
    simpl in H; [|done].
  injection H as <-. rewrite sort_desc_perm in Hin.
  apply normalize_all_Forall2 in Hn.
  apply list_elem_of_lookup in Hin as [i Hi].
  destruct (Forall2_lookup_r _ _ _ _ _ Hn Hi) as (e & He & Hok).
  exists e. split; [|done]. apply list_elem_of_lookup. by exists i.
Qed.

(** What [normalize_entry] puts in the fields that depend on each other. *)
Lemma normalize_entry_fields (e : RawEntry) (it : Item) :
  normalize_entry e = Ok it →
  title it = strip (or_empty (e_title e))
  ∧ link it = strip (or_empty (e_link e))
  ∧ summary it = _html_to_text (or_empty (e_summary e))
  ∧ tags it = add_section_tag (_section_tag_from_url (link it))
                (_extract_tags (title it ++ [SPACE] ++ summary it)).
Proof.
  unfold normalize_entry. intros H.
  match type of H with
  | mbind _ ?d = _ => destruct d as [dt_ny|]; simpl in H; [|done]
  end.
  by injection H as <-.
Qed.

End SortFacts.

(** ** The normaliser *)

Section NormalizerProps.

Context `{L : PyLibs}.

Lemma lstrip_by_length (p : N → bool) (s : pystr) :
  (length (lstrip_by p s) ≤ length s)%nat.
Proof.
  induction s as [|c s IH]; simpl; [done|].
  destruct (p c); simpl; lia.
Qed.

Lemma rstrip_by_length (p : N → bool) (s : pystr) :
  (length (rstrip_by p s) ≤ length s)%nat.
Proof.
  unfold rstrip_by. rewrite length_rev.
  etransitivity; [apply lstrip_by_length|]. by rewrite length_rev.
Qed.

Lemma html_to_text_cases (html : pystr) :
  _html_to_text html
  = if (MAX_SUMMARY_CHARS <? length (summary_text html))%nat
    then rstrip (firstn MAX_SUMMARY_CHARS (summary_text html)) ++ [ELLIPSIS]
    else summary_text html.
Proof.
  unfold _html_to_text, summary_text.
  destruct (truthy html); simpl; reflexivity.
Qed.

Lemma upper_hash (s : pystr) : upper (HASH :: s) = HASH :: upper s.
Proof. reflexivity. Qed.

Lemma add_section_tag_NoDup (sec : option pystr) (kw : list pystr) :
  NoDup kw → NoDup (add_section_tag sec kw).
Proof.
  intros Hkw. destruct sec as [s|]; simpl; [|done].
  destruct (truthy s); simpl; [|done].
  case_bool_decide; simpl; [done|].
  by apply NoDup_cons.
Qed.

Lemma central_bank_not_keyword :
  py "#CENTRAL_BANK" ∉ List.map snd KEYWORD_TAGS.
Proof.
  apply (bool_decide_unpack (py "#CENTRAL_BANK" ∉ List.map snd KEYWORD_TAGS)).
  vm_compute. exact I.
Qed.

Lemma sorted_after (it : Item) (l2 : list Item) :
  ∀ l1, StronglySorted key_ge (l1 ++ it :: l2) → Forall (key_ge it) l2.
Proof.
  induction l1 as [|x l1 IH]; simpl; intros H.
  - by apply StronglySorted_inv in H as [_ ?].
  - apply StronglySorted_inv in H as [? _]. by apply IH.
Qed.

(** C7: [_extract_tags] returns the tags of exactly the patterns of the
    table that are found in the lowercased text, in the order of the table
    and without repetition; on "Gold rallies as Fed signals cut" it returns
    #XAU then #Fed. *)
Theorem extract_tags_table_order (text : pystr) :
  _extract_tags text
  = List.map snd
      (List.filter (fun pt => re_search (fst pt) (lower text)) KEYWORD_TAGS)
  ∧ NoDup (_extract_tags text)
  ∧ _extract_tags (py "Gold rallies as Fed signals cut")
    = [py "#XAU"; py "#Fed"].
Proof.
  split; [apply extract_tags_filter|].
  split; [apply extract_tags_NoDup|].
  vm_compute. reflexivity.
Qed.

(** C3: every item that [parse_feed] returns has a tag list without
    repetition, the section tag at its front included. *)
Theorem parse_feed_tags_NoDup (xml : pystr) (items : list Item) :
  parse_feed xml = Ok items →
  Forall (fun it => NoDup (tags it)) items.
Proof.
  intros Hparse. apply Forall_forall. intros it Hin.
  destruct (parse_feed_items xml items it Hparse Hin) as (e & _ & He).
  apply normalize_entry_fields in He as (_ & _ & _ & ->).
  apply add_section_tag_NoDup, extract_tags_NoDup.
Qed.

(** C4: the list that [parse_feed] returns is in non-increasing order of
    [published_ny], an absent date counting as the empty string; after an
    item without date only items with an empty key follow. *)
Theorem parse_feed_sorted (xml : pystr) (items : list Item) :
  parse_feed xml = Ok items →
  StronglySorted key_ge items
  ∧ ∀ l1 it l2, items = l1 ++ it :: l2 → published_ny it = None →
                Forall (fun x => sort_key x = []) l2.
Proof.
  unfold parse_feed. intros H.
  destruct (normalize_all (feedparser_entries xml)) as [its|]; simpl in H;
    [|done].
  injection H as <-.
  split; [apply sort_desc_sorted|].
  intros l1 it l2 Heq Hnone.
  pose proof (sort_desc_sorted its) as Hs. rewrite Heq in Hs.
  apply sorted_after in Hs.
  eapply Forall_impl; [exact Hs|].
  intros x Hx. unfold key_ge, sort_key in Hx. rewrite Hnone in Hx.
  by apply str_le_nil_inv in Hx.
Qed.

(** C5: the summary [_html_to_text] returns has at most
    [MAX_SUMMARY_CHARS + 1] characters; when the text was longer than
    [MAX_SUMMARY_CHARS] it is the cut text followed by the ellipsis glyph,
    and otherwise it is the text unchanged. *)
Theorem html_to_text_length (html : pystr) :
  (length (_html_to_text html) ≤ MAX_SUMMARY_CHARS + 1)%nat
  ∧ ((MAX_SUMMARY_CHARS < length (summary_text html))%nat →
     _html_to_text html
     = rstrip (firstn MAX_SUMMARY_CHARS (summary_text html)) ++ [ELLIPSIS]
     ∧ last (_html_to_text html) = Some ELLIPSIS)
  ∧ ((length (summary_text html) ≤ MAX_SUMMARY_CHARS)%nat →
     _html_to_text html = summary_text html).
Proof.
  rewrite html_to_text_cases.
  destruct (Nat.ltb_spec MAX_SUMMARY_CHARS (length (summary_text html)))
    as [Hlong|Hshort].
  - split.
    + rewrite length_app. simpl.
      pose proof (rstrip_by_length is_space
                    (firstn MAX_SUMMARY_CHARS (summary_text html))) as Hr.
      rewrite length_take in Hr. unfold rstrip, MAX_SUMMARY_CHARS in *. lia.
    + split; [|lia]. intros _. split; [done|]. apply last_snoc.
  - split; [lia|]. split; [lia|done].
Qed.

(** C8: for an item of a parsed feed whose link has the path [p], the
    section tag is [#] followed by the upper-cased first segment of [p] with
    hyphens turned into underscores; when that segment is not empty the tag
    is put in front of the keyword tags unless it is one of them, and a
    first segment [central-bank] gives #CENTRAL_BANK in front of all
    keyword tags. *)
Theorem section_tag_first (xml : pystr) (items : list Item) (it : Item)
    (p : pystr) :
  parse_feed xml = Ok items → it ∈ items →
  urlparse_path (link it) = Some p →
  let first := before_first SLASH (strip_by is_slash p) in
  let sec := HASH :: upper (replace_char HYPHEN UNDERSCORE first) in
  let kw := _extract_tags (title it ++ [SPACE] ++ summary it) in
  (first ≠ [] →
   _section_tag_from_url (link it) = Some sec
   ∧ tags it = if bool_decide (sec ∈ kw) then kw else sec :: kw)
  ∧ (first = [] → _section_tag_from_url (link it) = None ∧ tags it = kw)
  ∧ (first = py "central-bank" → tags it = py "#CENTRAL_BANK" :: kw).
Proof.
  intros Hparse Hin Hpath first sec kw.
  destruct (parse_feed_items xml items it Hparse Hin) as (e & _ & He).
  apply normalize_entry_fields in He as (_ & _ & _ & Htags).
  fold kw in Htags.
  assert (Hsec : _section_tag_from_url (link it)
                 = if truthy first then Some sec else None).
  { unfold _section_tag_from_url. rewrite Hpath. fold first.
    destruct (truthy first); [|done]. by rewrite upper_hash. }
  assert (Hfront : first ≠ [] →
            _section_tag_from_url (link it) = Some sec
            ∧ tags it = if bool_decide (sec ∈ kw) then kw else sec :: kw).
  { intros Hne. assert (truthy first = true) as Ht by by destruct first.
    rewrite Ht in Hsec. split; [done|].
    rewrite Htags, Hsec. simpl. by case_bool_decide. }
  split; [done|]. split.
  - intros Hnil. rewrite Hnil in Hsec. simpl in Hsec.
    split; [done|]. by rewrite Htags, Hsec.
  - intros Hcb. destruct Hfront as [_ ->]; [by rewrite Hcb|].
    assert (sec = py "#CENTRAL_BANK") as ->.
    { unfold sec. rewrite Hcb. vm_compute. reflexivity. }
    rewrite bool_decide_eq_false_2; [done|].
    intros Hkw%extract_tags_in_table. by apply central_bank_not_keyword.
Qed.

End NormalizerProps.

(** ** The filter stage *)

Section FilterProps.

Context `{L : PyLibs}.

Lemma is_recent_true (cutoff : Z) (it : Item) :
  is_recent cutoff it = Ok true → dated_since cutoff it.
Proof.
  unfold is_recent, dated_since.
  destruct (published_ny it) as [s|]; [|done].
  destruct s as [|c s]; simpl; [done|].
  destruct (dtparse_parse (c :: s)) as [dt|] eqn:Hp; [|done].
  intros [= H]. apply Z.leb_le in H. by exists (c :: s), dt.
Qed.

Lemma keep_recent_spec (cutoff : Z) (items : list Item) :
  ∀ kept, keep_recent cutoff items = Ok kept →
          Forall (dated_since cutoff) kept ∧ kept ⊆ items.
Proof.
  induction items as [|it items IH]; simpl; intros kept H.
  - injection H as <-. split; [constructor|done].
  - destruct (is_recent cutoff it) as [keep|] eqn:Hk; simpl in H; [|done].
    destruct (keep_recent cutoff items) as [kept'|]; simpl in H; [|done].
    injection H as <-. destruct (IH kept' eq_refl) as [Hall Hsub].
    destruct keep.
    + split; [|by apply list_subseteq_skip].
      constructor; [by apply is_recent_true|done].
    + split; [done|by apply list_subseteq_cons].
Qed.

Lemma slice_to_subseteq {A} (n : Z) (l : list A) : slice_to n l ⊆ l.
Proof. unfold slice_to. destruct (0 <=? n); apply subseteq_take. Qed.

Lemma slice_to_length {A} (n : Z) (l : list A) :
  1 ≤ n → Z.of_nat (length (slice_to n l)) ≤ n.
Proof.
  intros Hn. unfold slice_to.
  destruct (Z.leb_spec 0 n); [|lia]. rewrite length_take. lia.
Qed.

(** The list the limit is applied to. *)
Lemma filter_items_inv (now : Z) (items : list Item) (hours limit : option Z)
    (out : list Item) :
  filter_items now items hours limit = Ok out →
  ∃ windowed,
    out = match limit with
          | Some n => if negb (n =? 0) then slice_to n windowed else windowed
          | None => windowed
          end
    ∧ match hours with
      | Some h =>
          if negb (h =? 0) then
            ∃ cutoff, cutoff = now - h * US_PER_HOUR
                      ∧ keep_recent cutoff items = Ok windowed
          else windowed = items
      | None => windowed = items
      end.
Proof.
  unfold filter_items. intros H.
  match type of H with
  | mbind _ ?m = _ => destruct m as [windowed|] eqn:Hm; simpl in H; [|done]
  end.
  injection H as <-. exists windowed. split; [done|].
  destruct hours as [h|]; [|by injection Hm].
  destruct (negb (h =? 0)); [|by injection Hm].
  unfold timedelta_hours in Hm.
  destruct (Z.abs _ <=? _); simpl in Hm; [|done].
  unfold datetime_sub in Hm.
  destruct (datetime_in_range _); simpl in Hm; [|done].
  by eexists.
Qed.

(** C6: when [filter_items] applies a window of [h] hours (a value other
    than 0), every item it returns has a date that parses to a wall-clock
    reading in New York not before the current one minus [h] hours; items
    without date are not returned. *)
Theorem filter_items_window (now : Z) (items : list Item) (h : Z)
    (limit : option Z) (out : list Item) :
  h ≠ 0 →
  filter_items now items (Some h) limit = Ok out →
  Forall (dated_since (now - h * US_PER_HOUR)) out
  ∧ Forall (fun it => published_ny it ≠ None) out
  ∧ out ⊆ items.
Proof.
  intros Hh (windowed & -> & Hw)%filter_items_inv.
  apply Z.eqb_neq in Hh. rewrite Hh in Hw. simpl in Hw.
  destruct Hw as (cutoff & -> & [Hall Hsub]%keep_recent_spec).
  assert (Hcut : ∀ n, Forall (dated_since (now - h * US_PER_HOUR))
                        (slice_to n windowed)).
  { intros n. unfold slice_to. destruct (0 <=? n); by apply Forall_take. }
  assert (Hout : Forall (dated_since (now - h * US_PER_HOUR))
            match limit with
            | Some n => if negb (n =? 0) then slice_to n windowed else windowed
            | None => windowed
            end).
  { destruct limit as [n|]; [|done].
    destruct (negb (n =? 0)); [apply Hcut|done]. }
  split; [done|]. split.
  - eapply Forall_impl; [exact Hout|].
    intros it (s & dt & -> & _). done.
  - etransitivity; [|exact Hsub].
    destruct limit as [n|]; [|done].
    destruct (negb (n =? 0)); [apply slice_to_subseteq|done].
Qed.

(** C2, as the code has it: with a limit of at least 1, [filter_items]
    returns at most [limit] items. *)
Theorem filter_items_limit (now : Z) (items : list Item) (hours : option Z)
    (limit : Z) (out : list Item) :
  1 ≤ limit →
  filter_items now items hours (Some limit) = Ok out →
  Z.of_nat (length out) ≤ limit.
Proof.
  intros Hl (windowed & -> & _)%filter_items_inv.
  assert ((limit =? 0) = false) as -> by lia. simpl.
  by apply slice_to_length.
Qed.

End FilterProps.

(** ** The fetcher *)

Section FetchProps.

Context `{L : PyLibs}.

Variable w : World.
Variable headers : gmap string pystr.
Variable cache0 : json_dict.
Variable url : pystr.
Variable max_retries : Z.

Lemma slept_more_nil (st : Sys) : slept_more st [] = st.
Proof. destruct st. unfold slept_more. simpl. by rewrite app_nil_r. Qed.

Lemma slept_more_app (st : Sys) (a b : list nap) :
  slept_more (slept_more st a) b = slept_more st (a ++ b).
Proof. unfold slept_more. simpl. by rewrite app_assoc. Qed.

(** An attempt that is retried and is not the last one leaves the cache
    file alone and sleeps at most once. *)
Lemma fetch_loop_retry (n : nat) (attempt backoff : Z) (st : Sys) :
  attempt ≠ max_retries →
  retried w headers url attempt = true →
  ∃ backoff' naps,
    (length naps ≤ 1)%nat
    ∧ fetch_loop w headers cache0 url max_retries (S n) attempt backoff st
      = fetch_loop w headers cache0 url max_retries n (attempt + 1) backoff'
          (slept_more st naps).
Proof.
  intros Hlast%Z.eqb_neq Hretry. unfold retried in Hretry.
  simpl. rewrite Hlast.
  destruct (client_get w headers url attempt) as [r|e].
  - apply andb_true_iff in Hretry as [H304%negb_true_iff H200%negb_true_iff].
    rewrite H304, H200.
    destruct ((status_code r =? 429) || (status_code r =? 503)).
    { exists (next_backoff backoff), [ {| nap_backoff := backoff;
                                          nap_tenths := attempt |} ].
      split; [simpl; lia|done]. }
    destruct (status_raises (status_code r)).
    { exists (next_backoff backoff), [ {| nap_backoff := backoff;
                                          nap_tenths := 0 |} ].
      split; [simpl; lia|done]. }
    exists backoff, []. split; [simpl; lia|]. by rewrite slept_more_nil.
  - destruct e; try done.
    exists (next_backoff backoff), [ {| nap_backoff := backoff;
                                        nap_tenths := 0 |} ].
    split; [simpl; lia|done].
Qed.

(** A 304 ends the loop at once: after [j] retried attempts the answer to
    the next one is returned as [None] and nothing more is slept. *)
Lemma fetch_loop_304 (r : response) (n : nat) :
  ∀ (j : nat) (attempt backoff : Z) (st : Sys),
    attempt + Z.of_nat j ≤ max_retries →
    (∀ i, attempt ≤ i < attempt + Z.of_nat j →
          retried w headers url i = true) →
    client_get w headers url (attempt + Z.of_nat j) = Responds r →
    status_code r = 304 →
    ∃ naps, (length naps ≤ j)%nat
            ∧ fetch_loop w headers cache0 url max_retries (S (j + n)) attempt
                backoff st
              = (Ok None, slept_more st naps).
Proof.
  induction j as [|j IH]; intros attempt backoff st Hmax Hretry Hget H304.
  - exists []. split; [done|]. rewrite slept_more_nil.
    rewrite Z.add_0_r in Hget. simpl.
    rewrite Hget, H304. done.
  - destruct (fetch_loop_retry (S (j + n)) attempt backoff st)
      as (b' & naps & Hlen & Hstep); [lia|apply Hretry; lia|].
    destruct (IH (attempt + 1) b' (slept_more st naps))
      as (naps' & Hlen' & Hrest).
    + lia.
    + intros i Hi. apply Hretry. lia.
    + by replace (attempt + 1 + Z.of_nat j) with (attempt + Z.of_nat (S j))
        by lia.
    + done.
    + exists (naps ++ naps'). split; [rewrite length_app; lia|].
      change (S (S j + n)) with (S (S (j + n))).
      by rewrite Hstep, Hrest, slept_more_app.
Qed.

(** Attempts that are all answered 429 or 503 end in the final
    [return None]. *)
Lemma fetch_loop_busy :
  ∀ (n : nat) (attempt backoff : Z) (st : Sys),
    (∀ i, attempt ≤ i < attempt + Z.of_nat n → busy w headers url i = true) →
    ∃ naps, length naps = n
            ∧ fetch_loop w headers cache0 url max_retries n attempt backoff st
              = (Ok None, slept_more st naps).
Proof.
  induction n as [|n IH]; intros attempt backoff st Hbusy.
  - exists []. by rewrite slept_more_nil.
  - pose proof (Hbusy attempt ltac:(lia)) as Hb. unfold busy in Hb.
    simpl.
    destruct (client_get w headers url attempt) as [r|e]; [|done].
    destruct (IH (attempt + 1) (next_backoff backoff)
                (sleep backoff attempt st))
      as (naps & Hlen & Hrest); [intros i Hi; apply Hbusy; lia|].
    assert (status_code r ≠ 304 ∧ status_code r ≠ 200) as [H1 H2] by lia.
    apply Z.eqb_neq in H1, H2. rewrite H1, H2, Hb.
    exists ({| nap_backoff := backoff; nap_tenths := attempt |} :: naps).
    split; [simpl; lia|].
    rewrite Hrest. unfold sleep, slept_more. simpl.
    by rewrite <- app_assoc.
Qed.

(** Only a call that returns a body writes the cache file. *)
Lemma fetch_loop_cache_frame :
  ∀ (n : nat) (attempt backoff : Z) (st : Sys),
    (∀ body, fst (fetch_loop w headers cache0 url max_retries n attempt
                    backoff st) ≠ Ok (Some body)) →
    cache (snd (fetch_loop w headers cache0 url max_retries n attempt
                  backoff st)) = cache st.
Proof.
  induction n as [|n IH]; intros attempt backoff st; simpl; [done|].
  destruct (client_get w headers url attempt) as [r|e].
  - destruct (status_code r =? 304); [done|].
    destruct (status_code r =? 200); [intros H; by destruct (H (r_text r))|].
    destruct ((status_code r =? 429) || (status_code r =? 503));
      [intros H; by rewrite IH|].
    destruct (status_raises (status_code r)); [|apply IH].
    destruct (attempt =? max_retries); [done|]. intros H. by rewrite IH.
  - destruct e; try done.
    destruct (attempt =? max_retries); [done|]. intros H. by rewrite IH.
Qed.

End FetchProps.

Section DigestProps.

Context `{L : PyLibs}.

(** C9: when the attempt that ends the loop is answered 304 (every attempt
    before it having been retried), [polite_fetch] returns [None], the cache
    file is what it was, and nothing is slept for that attempt. *)
Theorem polite_fetch_304 (w : World) (url : pystr) (max_retries : Z)
    (st : Sys) (k : Z) (r : response) :
  let headers := request_headers (_load_cache (cache st)) in
  1 ≤ k ≤ max_retries →
  (∀ i, 1 ≤ i < k → retried w headers url i = true) →
  client_get w headers url k = Responds r →
  status_code r = 304 →
  ∃ naps, Z.of_nat (length naps) ≤ k - 1
          ∧ polite_fetch w url max_retries st
            = (Ok None, {| cache := cache st; slept := slept st ++ naps |}).
Proof.
  intros headers Hk Hretry Hget H304. unfold polite_fetch. fold headers.
  destruct (fetch_loop_304 w headers (_load_cache (cache st)) url max_retries
              r (Z.to_nat (max_retries - k)) (Z.to_nat (k - 1)) 1 1 st)
    as (naps & Hlen & Hrun).
  - lia.
  - intros i Hi. apply Hretry. lia.
  - by replace (1 + Z.of_nat (Z.to_nat (k - 1))) with k by lia.
  - done.
  - exists naps. split; [lia|].
    replace (Z.to_nat max_retries)
      with (S (Z.to_nat (k - 1) + Z.to_nat (max_retries - k))) by lia.
    exact Hrun.
Qed.

(** C1: on a server that answers 503 to each of the five attempts,
    [polite_fetch] raises nothing: it returns [None], the value it returns
    for a 304, after the five sleeps. *)
Theorem polite_fetch_busy_exhausted :
  (∀ k, busy Mock.busy_world (request_headers ∅) FEED_URL k = true)
  ∧ polite_fetch Mock.busy_world FEED_URL 5 Mock.no_cache
    = (Ok None,
       {| cache := FileAbsent;
          slept := [ {| nap_backoff := 1; nap_tenths := 1 |};
                     {| nap_backoff := 2; nap_tenths := 2 |};
                     {| nap_backoff := 4; nap_tenths := 3 |};
                     {| nap_backoff := 8; nap_tenths := 4 |};
                     {| nap_backoff := 16; nap_tenths := 5 |} ] |}).
Proof. split; [done|]. vm_compute. reflexivity. Qed.

(** Whatever the number of attempts, answers of 429 or 503 to all of them
    give [None] with the cache file as it was. *)
Lemma polite_fetch_busy (w : World) (url : pystr) (max_retries : Z) (st : Sys) :
  (∀ i, 1 ≤ i ≤ max_retries →
        busy w (request_headers (_load_cache (cache st))) url i = true) →
  ∃ naps, polite_fetch w url max_retries st
          = (Ok None, {| cache := cache st; slept := slept st ++ naps |}).
Proof.
  intros Hbusy. unfold polite_fetch.
  destruct (fetch_loop_busy w (request_headers (_load_cache (cache st)))
              (_load_cache (cache st)) url max_retries
              (Z.to_nat max_retries) 1 1 st) as (naps & _ & Hrun).
  - intros i Hi. apply Hbusy. lia.
  - by exists naps.
Qed.

Lemma filter_items_nil (now : Z) (hours : option Z) (limit : Z) :
  window_computable now hours →
  filter_items now [] hours (Some limit) = Ok [].
Proof.
  unfold filter_items, window_computable.
  assert (Hcut : ∀ n, slice_to n (@nil Item) = []).
  { intros n. unfold slice_to. destruct (0 <=? n); apply take_nil. }
  destruct hours as [h|]; simpl.
  - intros [Hh Hnow].
    assert ((h =? 0) = false) as -> by lia. simpl.
    unfold timedelta_hours.
    assert ((Z.abs (h * US_PER_HOUR / US_PER_DAY) <=? TIMEDELTA_MAX_DAYS)
            = true) as ->.
    { apply Z.leb_le. unfold US_PER_DAY, US_PER_HOUR, TIMEDELTA_MAX_DAYS.
      assert (0 ≤ h * 3600000000 / (24 * 3600000000) ≤ 3).
      { split; [apply Z.div_pos; lia|].
        apply Z.lt_succ_r, Z.div_lt_upper_bound; lia. }
      lia. }
    simpl. unfold datetime_sub, datetime_in_range.
    assert ((0 <=? now - h * US_PER_HOUR) = true) as ->.
    { apply Z.leb_le. unfold US_PER_HOUR in *. lia. }
    assert ((now - h * US_PER_HOUR <=? DATETIME_MAX) = true) as ->.
    { apply Z.leb_le. unfold US_PER_HOUR in *. lia. }
    simpl. destruct (negb (limit =? 0)); by rewrite ?Hcut.
  - intros _. destruct (negb (limit =? 0)); by rewrite ?Hcut.
Qed.

(** C10: when [polite_fetch] returns [None], [get_digest] returns the empty
    list; a fetched feed without entries gives the same result (for hours
    as the endpoint admits them), so the caller cannot tell the two
    apart. *)
Theorem get_digest_no_change (w : World) (url : pystr) (hours : option Z)
    (limit : Z) (st st' : Sys) :
  polite_fetch w url 5 st = (Ok None, st') →
  get_digest w url hours limit st = (Ok [], st')
  ∧ ∀ (w2 : World) (st2 st2' : Sys) (xml : pystr),
      polite_fetch w2 url 5 st2 = (Ok (Some xml), st2') →
      parse_feed xml = Ok [] →
      window_computable (now_ny w2) hours →
      fst (get_digest w2 url hours limit st2)
      = fst (get_digest w url hours limit st).
Proof.
  intros Hfetch. unfold get_digest. rewrite Hfetch. split; [done|].
  intros w2 st2 st2' xml Hfetch2 Hparse Hwin.
  rewrite Hfetch2, Hparse. simpl.
  by apply filter_items_nil.
Qed.

End DigestProps.

(** ** Runs on the test doubles *)

Lemma parse_feed_tags_NoDup_witness :
  @parse_feed Mock.libs Mock.feed_xml = Ok Mock.items
  ∧ Forall (fun it => NoDup (tags it)) Mock.items.
Proof.
  assert (H : @parse_feed Mock.libs Mock.feed_xml = Ok Mock.items)
    by (vm_compute; reflexivity).
  split; [exact H|].
  exact (parse_feed_tags_NoDup (L := Mock.libs) Mock.feed_xml Mock.items H).
Defined.

Lemma parse_feed_sorted_witness :
  @parse_feed Mock.libs Mock.feed_xml = Ok Mock.items
  ∧ StronglySorted key_ge Mock.items
  ∧ ∀ l1 it l2, Mock.items = l1 ++ it :: l2 → published_ny it = None →
                Forall (fun x => sort_key x = []) l2.
Proof.
  assert (H : @parse_feed Mock.libs Mock.feed_xml = Ok Mock.items)
    by (vm_compute; reflexivity).
  split; [exact H|].
  exact (parse_feed_sorted (L := Mock.libs) Mock.feed_xml Mock.items H).
Defined.

Lemma html_to_text_length_witness :
  (MAX_SUMMARY_CHARS < length (@summary_text Mock.libs (repeat 97%N 230)))%nat
  ∧ last (@_html_to_text Mock.libs (repeat 97%N 230)) = Some ELLIPSIS.
Proof.
  assert (H : (MAX_SUMMARY_CHARS
               < length (@summary_text Mock.libs (repeat 97%N 230)))%nat)
    by (apply Nat.ltb_lt; vm_compute; reflexivity).
  split; [exact H|].
  exact (proj2 (proj1 (proj2 (html_to_text_length (L := Mock.libs)
                                (repeat 97%N 230))) H)).
Defined.

Lemma section_tag_first_witness :
  @_section_tag_from_url Mock.libs (link Mock.item_ecb)
  = Some (py "#CENTRAL_BANK")
  ∧ tags Mock.item_ecb
    = py "#CENTRAL_BANK"
      :: @_extract_tags Mock.libs
           (title Mock.item_ecb ++ [SPACE] ++ summary Mock.item_ecb).
Proof.
  assert (Hparse : @parse_feed Mock.libs Mock.feed_xml = Ok Mock.items)
    by (vm_compute; reflexivity).
  assert (Hin : Mock.item_ecb ∈ Mock.items) by apply list_elem_of_here.
  assert (Hpath : @urlparse_path Mock.libs (link Mock.item_ecb)
                  = Some (py "/central-bank/ecb-preview"))
    by (vm_compute; reflexivity).
  destruct (section_tag_first (L := Mock.libs) Mock.feed_xml Mock.items
              Mock.item_ecb (py "/central-bank/ecb-preview") Hparse Hin Hpath)
    as (Hfront & _ & Hcb).
  split.
  - destruct Hfront as [-> _]; [discriminate|]. vm_compute. reflexivity.
  - apply Hcb. vm_compute. reflexivity.
Defined.

Lemma filter_items_window_witness :
  @filter_items Mock.libs (Mock.at_hm 12 0) Mock.items (Some 6) (Some 40)
  = Ok [Mock.item_ecb]
  ∧ Forall (@dated_since Mock.libs (Mock.at_hm 12 0 - 6 * US_PER_HOUR))
      [Mock.item_ecb].
Proof.
  assert (H : @filter_items Mock.libs (Mock.at_hm 12 0) Mock.items (Some 6)
                (Some 40) = Ok [Mock.item_ecb])
    by (vm_compute; reflexivity).
  split; [exact H|].
  refine (proj1 (filter_items_window (L := Mock.libs) (Mock.at_hm 12 0)
                   Mock.items 6 (Some 40) [Mock.item_ecb] _ H)).
  discriminate.
Defined.

Lemma filter_items_limit_witness :
  @filter_items Mock.libs (Mock.at_hm 12 0) Mock.items None (Some 2)
  = Ok [Mock.item_ecb; Mock.item_oil]
  ∧ Z.of_nat (length [Mock.item_ecb; Mock.item_oil]) ≤ 2.
Proof.
  assert (H : @filter_items Mock.libs (Mock.at_hm 12 0) Mock.items None
                (Some 2) = Ok [Mock.item_ecb; Mock.item_oil])
    by (vm_compute; reflexivity).
  split; [exact H|].
  refine (filter_items_limit (L := Mock.libs) (Mock.at_hm 12 0) Mock.items
            None 2 [Mock.item_ecb; Mock.item_oil] _ H).
  lia.
Defined.

(** The bound on the length does not extend to the limits 0 and -1: of
    three items, three come out for the limit 0 and two for the limit -1. *)
Lemma filter_items_limit_counterexample :
  (@filter_items Mock.libs (Mock.at_hm 12 0) Mock.items None (Some 0)
   = Ok Mock.items
   ∧ ¬ Z.of_nat (length Mock.items) ≤ 0)
  ∧ (@filter_items Mock.libs (Mock.at_hm 12 0) Mock.items None (Some (-1))
     = Ok [Mock.item_ecb; Mock.item_oil]
     ∧ ¬ Z.of_nat (length [Mock.item_ecb; Mock.item_oil]) ≤ -1).
Proof.
  split; (split; [vm_compute; reflexivity | simpl; lia]).
Qed.

(** The window does not extend to the value 0: with [hours = 0] the three
    items come out as they went in, the undated one and the one dated a day
    before the current time among them. *)
Lemma filter_items_window_counterexample :
  @filter_items Mock.libs (Mock.at_hm 12 0) Mock.items (Some 0) None
  = Ok Mock.items
  ∧ ¬ Forall (@dated_since Mock.libs (Mock.at_hm 12 0 - 0 * US_PER_HOUR))
        Mock.items
  ∧ ¬ Forall (fun it => published_ny it ≠ None) Mock.items
  ∧ Mock.item_oil ∈ Mock.items
  ∧ ¬ @dated_since Mock.libs (Mock.at_hm 12 0 - 0 * US_PER_HOUR)
        Mock.item_oil.
Proof.
  assert (Hold : ¬ @dated_since Mock.libs (Mock.at_hm 12 0 - 0 * US_PER_HOUR)
                     Mock.item_oil).
  { intros (s & dt & Hs & _ & Hp & Hle). simpl in Hs. injection Hs as <-.
    vm_compute in Hp. injection Hp as <-. vm_compute in Hle. by apply Hle. }
  assert (Hin : Mock.item_oil ∈ Mock.items)
    by (apply list_elem_of_further, list_elem_of_here).
  split; [vm_compute; reflexivity|].
  split; [intros H; apply Hold; by eapply (proj1 (Forall_forall _ _) H)|].
  split; [|done].
  intros H.
  assert (Hu : Mock.item_undated ∈ Mock.items)
    by (do 2 apply list_elem_of_further; apply list_elem_of_here).
  by apply (proj1 (Forall_forall _ _) H _ Hu).
Qed.

Lemma polite_fetch_304_witness :
  ∃ naps, Z.of_nat (length naps) ≤ 2 - 1
          ∧ @polite_fetch Mock.libs Mock.revalidating_world FEED_URL 5
              Mock.stored
            = (Ok None, {| cache := cache Mock.stored;
                           slept := slept Mock.stored ++ naps |}).
Proof.
  refine (polite_fetch_304 (L := Mock.libs) Mock.revalidating_world FEED_URL 5
            Mock.stored 2
            {| status_code := 304; hdr_etag := None;
               hdr_last_modified := None; r_text := [] |} _ _ _ _).
  - lia.
  - intros i Hi. assert (i = 1) as -> by lia. vm_compute. reflexivity.
  - vm_compute. reflexivity.
  - reflexivity.
Defined.

Lemma get_digest_no_change_witness :
  @get_digest Mock.libs Mock.revalidating_world FEED_URL (Some 6) 40
    Mock.stored
  = (Ok [], {| cache := cache Mock.stored;
               slept := [ {| nap_backoff := 1; nap_tenths := 1 |} ] |}).
Proof.
  refine (proj1 (get_digest_no_change (L := Mock.libs) Mock.revalidating_world
                   FEED_URL (Some 6) 40 Mock.stored _ _)).
  vm_compute. reflexivity.
Defined.

(** The summary is normalised as the source does it: a run of whitespace
    with a newline becomes one newline, any other run one space, and the
    ends are trimmed. *)
Example html_to_text_whitespace :
  @_html_to_text Mock.libs
    ([32; 97; 32; 32; 10; 32; 98; 32; 32; 32; 99; 9; 100; 32]%N)
  = [97; 10; 98; 32; 99; 9; 100]%N.
Proof. vm_compute. reflexivity. Qed.

(** A 503 and then a 200: the body is returned, the entity tag is stored
    and the one sleep is [1 + 0.1 * 1] seconds. *)
Example polite_fetch_retry_then_body :
  @polite_fetch Mock.libs Mock.revalidating_world FEED_URL 5 Mock.no_cache
  = (Ok (Some Mock.feed_xml),
     {| cache := FileJson {[ "etag"%string := Some (py "v1");
                             "last_modified"%string := None;
                             "fetched_at"%string := Some Mock.clock ]};
        slept := [ {| nap_backoff := 1; nap_tenths := 1 |} ] |}).
Proof. vm_compute. reflexivity. Qed.

(** A transport error on every attempt is raised on the last one. *)
Example polite_fetch_transport_error :
  fst (@polite_fetch Mock.libs
         {| client_get := fun _ _ _ => Throws HTTPError;
            utcnow_isoformat := Mock.clock;
            cache_write := WriteOk;
            now_ny := Mock.at_hm 12 0 |}
         FEED_URL 5 Mock.no_cache)
  = Raise HTTPError.
Proof. vm_compute. reflexivity. Qed.

(** The sort is stable: items with equal keys keep their order. *)
Example sort_desc_stable :
  sort_desc [Mock.item_undated; Mock.item_oil;
             {| title := py "Second note"; link := []; published_ny := None;
                tags := []; summary := [] |};
             Mock.item_ecb]
  = [Mock.item_ecb; Mock.item_oil; Mock.item_undated;
     {| title := py "Second note"; link := []; published_ny := None;
        tags := []; summary := [] |}].
Proof. vm_compute. reflexivity. Qed.

(** * Further properties of the fetcher *)

Section FetchMore.

Context `{L : PyLibs}.

Variable w : World.
Variable headers : gmap string pystr.
Variable cache0 : json_dict.
Variable url : pystr.
Variable max_retries : Z.

(** [j] retried attempts, none of them the last, take the loop to the
    attempt after them with the cache file as it was. *)
Lemma fetch_loop_reach (n : nat) :
  ∀ (j : nat) (attempt backoff : Z) (st : Sys),
    attempt + Z.of_nat j ≤ max_retries →
    (∀ i, attempt ≤ i < attempt + Z.of_nat j →
          retried w headers url i = true) →
    ∃ backoff' naps,
      (length naps ≤ j)%nat
      ∧ fetch_loop w headers cache0 url max_retries (j + n) attempt backoff st
        = fetch_loop w headers cache0 url max_retries n
            (attempt + Z.of_nat j) backoff' (slept_more st naps).
Proof.
  induction j as [|j IH]; intros attempt backoff st Hmax Hretry.
  - exists backoff, []. split; [done|].
    by rewrite slept_more_nil, Z.add_0_r.
  - destruct (fetch_loop_retry w headers cache0 url max_retries (j + n)
                attempt backoff st)
      as (b1 & naps1 & Hlen1 & Hstep); [lia|apply Hretry; lia|].
    destruct (IH (attempt + 1) b1 (slept_more st naps1))
      as (b2 & naps2 & Hlen2 & Hrest); [lia|intros i Hi; apply Hretry; lia|].
    exists b2, (naps1 ++ naps2). split; [rewrite length_app; lia|].
    change (S j + n)%nat with (S (j + n)).
    rewrite Hstep, Hrest, slept_more_app.
    by replace (attempt + 1 + Z.of_nat j) with (attempt + Z.of_nat (S j))
      by lia.
Qed.

(** The sleeps of a run: the [i]-th one uses the starting backoff doubled
    [i] times under the cap, and there is at most one per attempt. *)
Lemma fetch_loop_naps :
  ∀ (n : nat) (attempt backoff : Z) (st : Sys),
    ∃ naps,
      slept (snd (fetch_loop w headers cache0 url max_retries n attempt
                    backoff st)) = slept st ++ naps
      ∧ (length naps ≤ n)%nat
      ∧ ∀ (i : nat) (x : nap),
          naps !! i = Some x →
          nap_backoff x = Nat.iter i next_backoff backoff
          ∧ (nap_tenths x = 0
             ∨ attempt ≤ nap_tenths x < attempt + Z.of_nat n).
Proof.
  induction n as [|n IH]; intros attempt backoff st.
  { exists []. simpl. rewrite app_nil_r. split; [done|]. split; [done|].
    intros i x Hx. by rewrite lookup_nil in Hx. }
  assert (Hnone : ∃ naps : list nap,
             slept st = slept st ++ naps ∧ (length naps ≤ S n)%nat
             ∧ ∀ (i : nat) (x : nap),
                 naps !! i = Some x →
                 nap_backoff x = Nat.iter i next_backoff backoff
                 ∧ (nap_tenths x = 0
                    ∨ attempt ≤ nap_tenths x < attempt + Z.of_nat (S n))).
  { exists []. rewrite app_nil_r. split; [done|]. split; [simpl; lia|].
    intros i x Hx. by rewrite lookup_nil in Hx. }
  assert (Hsleep : ∀ tenths,
             tenths = 0 ∨ tenths = attempt →
             ∃ naps : list nap,
               slept (snd (fetch_loop w headers cache0 url max_retries n
                             (attempt + 1) (next_backoff backoff)
                             (sleep backoff tenths st)))
               = slept st ++ naps
               ∧ (length naps ≤ S n)%nat
               ∧ ∀ (i : nat) (x : nap),
                   naps !! i = Some x →
                   nap_backoff x = Nat.iter i next_backoff backoff
                   ∧ (nap_tenths x = 0
                      ∨ attempt ≤ nap_tenths x
                        < attempt + Z.of_nat (S n))).
  { intros tenths Ht.
    destruct (IH (attempt + 1) (next_backoff backoff)
                (sleep backoff tenths st)) as (naps & Hs & Hlen & Hnaps).
    exists ({| nap_backoff := backoff; nap_tenths := tenths |} :: naps).
    split; [rewrite Hs; simpl; by rewrite <- app_assoc|].
    split; [simpl; lia|].
    intros [|i] x Hx; simpl in Hx.
    - injection Hx as <-. simpl. split; [done|]. lia.
    - destruct (Hnaps i x Hx) as [Hb Ht'].
      split; [by rewrite Hb, Nat.iter_succ_r|]. lia. }
  assert (Hskip :
            ∃ naps : list nap,
              slept (snd (fetch_loop w headers cache0 url max_retries n
                            (attempt + 1) backoff st))
              = slept st ++ naps
              ∧ (length naps ≤ S n)%nat
              ∧ ∀ (i : nat) (x : nap),
                  naps !! i = Some x →
                  nap_backoff x = Nat.iter i next_backoff backoff
                  ∧ (nap_tenths x = 0
                     ∨ attempt ≤ nap_tenths x < attempt + Z.of_nat (S n))).
  { destruct (IH (attempt + 1) backoff st) as (naps & Hs & Hlen & Hnaps).
    exists naps. split; [done|]. split; [lia|].
    intros i x Hx. destruct (Hnaps i x Hx) as [Hb Ht']. split; [done|]. lia. }
  simpl.
  destruct (client_get w headers url attempt) as [r|e].
  - destruct (status_code r =? 304); [exact Hnone|].
    destruct (status_code r =? 200); [exact Hnone|].
    destruct ((status_code r =? 429) || (status_code r =? 503));
      [apply Hsleep; by right|].
    destruct (status_raises (status_code r)); [|exact Hskip].
    destruct (attempt =? max_retries); [exact Hnone|apply Hsleep; by left].
  - destruct e; try exact Hnone.
    destruct (attempt =? max_retries); [exact Hnone|apply Hsleep; by left].
Qed.

Lemma next_backoff_iter (i : nat) :
  Nat.iter i next_backoff 1 = Z.min (2 ^ Z.of_nat i) 30.
Proof.
  induction i as [|i IH]; [done|].
  rewrite Nat2Z.inj_succ, Z.pow_succ_r by lia. simpl. rewrite IH.
  unfold next_backoff. lia.
Qed.

(** A body is returned only for an answer of 200, and the cache file is
    then what [_save_cache] makes of the new record. *)
Lemma fetch_loop_body_inv :
  ∀ (n : nat) (attempt backoff : Z) (st st' : Sys) (body : pystr),
    fetch_loop w headers cache0 url max_retries n attempt backoff st
    = (Ok (Some body), st') →
    ∃ k r, attempt ≤ k < attempt + Z.of_nat n
           ∧ client_get w headers url k = Responds r
           ∧ status_code r = 200
           ∧ body = r_text r
           ∧ cache st' = _save_cache (cache_write w)
                           (new_cache_record w cache0 r) (cache st).
Proof.
  induction n as [|n IH]; intros attempt backoff st st' body; simpl; [done|].
  assert (Hnext : ∀ b st1,
             cache st1 = cache st →
             fetch_loop w headers cache0 url max_retries n (attempt + 1) b st1
             = (Ok (Some body), st') →
             ∃ k r, attempt ≤ k < attempt + Z.of_nat (S n)
                    ∧ client_get w headers url k = Responds r
                    ∧ status_code r = 200
                    ∧ body = r_text r
                    ∧ cache st' = _save_cache (cache_write w)
                                    (new_cache_record w cache0 r) (cache st)).
  { intros b st1 Hc (k & r & Hk & Hget & H200 & Hb & Hcache)%IH.
    exists k, r. rewrite Hc in Hcache. repeat split; try done; lia. }
  destruct (client_get w headers url attempt) as [r|e] eqn:Hget.
  - destruct (status_code r =? 304); [done|].
    destruct (status_code r =? 200) eqn:H200.
    { intros [= <- <-]. exists attempt, r. apply Z.eqb_eq in H200.
      repeat split; try done; lia. }
    destruct ((status_code r =? 429) || (status_code r =? 503));
      [by apply Hnext|].
    destruct (status_raises (status_code r)); [|by apply Hnext].
    destruct (attempt =? max_retries); [done|by apply Hnext].
  - destruct e; try done.
    destruct (attempt =? max_retries); [done|by apply Hnext].
Qed.

(** An [HTTPError] leaves the loop only on the attempt numbered
    [max_retries]. *)
Lemma fetch_loop_error_inv :
  ∀ (n : nat) (attempt backoff : Z) (st : Sys),
    fst (fetch_loop w headers cache0 url max_retries n attempt backoff st)
    = Raise HTTPError →
    attempt ≤ max_retries < attempt + Z.of_nat n
    ∧ (client_get w headers url max_retries = Throws HTTPError
       ∨ ∃ r, client_get w headers url max_retries = Responds r
              ∧ status_raises (status_code r) = true
              ∧ status_code r ≠ 200 ∧ status_code r ≠ 304
              ∧ status_code r ≠ 429 ∧ status_code r ≠ 503).
Proof.
  induction n as [|n IH]; intros attempt backoff st; simpl; [done|].
  assert (Hnext : ∀ b st1,
             fst (fetch_loop w headers cache0 url max_retries n (attempt + 1)
                    b st1) = Raise HTTPError →
             attempt ≤ max_retries < attempt + Z.of_nat (S n)
             ∧ (client_get w headers url max_retries = Throws HTTPError
                ∨ ∃ r, client_get w headers url max_retries = Responds r
                       ∧ status_raises (status_code r) = true
                       ∧ status_code r ≠ 200 ∧ status_code r ≠ 304
                       ∧ status_code r ≠ 429 ∧ status_code r ≠ 503)).
  { intros b st1 [Hk Hwhy]%IH. split; [lia|done]. }
  destruct (client_get w headers url attempt) as [r|e] eqn:Hget.
  - destruct (status_code r =? 304) eqn:H304; [done|].
    destruct (status_code r =? 200) eqn:H200; [done|].
    destruct ((status_code r =? 429) || (status_code r =? 503)) eqn:Hbusy;
      [by apply Hnext|].
    destruct (status_raises (status_code r)) eqn:Hraises; [|by apply Hnext].
    destruct (attempt =? max_retries) eqn:Hlast; [|by apply Hnext].
    intros _. apply Z.eqb_eq in Hlast. subst attempt. split; [lia|].
    right. exists r. apply orb_false_iff in Hbusy as [H429 H503].
    repeat split; try done; by apply Z.eqb_neq.
  - destruct e; try done.
    destruct (attempt =? max_retries) eqn:Hlast; [|by apply Hnext].
    intros _. apply Z.eqb_eq in Hlast. subst attempt. split; [lia|by left].
Qed.

End FetchMore.

Section FetchExtras.

Context `{L : PyLibs}.

Lemma with_validator_lookup (name k : string) (v : option pystr)
    (headers : gmap string pystr) :
  with_validator name v headers !! k
  = if decide (k = name)
    then match validator_header v with
         | Some s => Some s
         | None => headers !! k
         end
    else headers !! k.
Proof.
  unfold with_validator, validator_header, truthy_opt.
  destruct v as [s|]; simpl.
  - destruct (truthy s); case_decide; subst;
      by rewrite ?lookup_insert_eq, ?lookup_insert_ne.
  - by case_decide.
Qed.

Lemma request_headers_lookups (cache : json_dict) :
  request_headers cache !! "User-Agent"%string = Some UA
  ∧ request_headers cache !! "Accept"%string
    = Some (py "application/rss+xml, application/xml;q=0.9, */*;q=0.8")
  ∧ request_headers cache !! "Accept-Language"%string
    = Some (py "en-US,en;q=0.9")
  ∧ request_headers cache !! "Connection"%string = Some (py "keep-alive")
  ∧ request_headers cache !! "If-None-Match"%string
    = validator_header (dict_get cache "etag")
  ∧ request_headers cache !! "If-Modified-Since"%string
    = validator_header (dict_get cache "last_modified")
  ∧ ∀ k, is_Some (request_headers cache !! k) →
         k ∈ ["User-Agent"; "Accept"; "Accept-Language"; "Connection";
              "If-None-Match"; "If-Modified-Since"]%string.
Proof.
  unfold request_headers.
  repeat split.
  1-6: rewrite !with_validator_lookup; repeat case_decide; try done;
       by destruct (validator_header _).
  intros k. rewrite !with_validator_lookup.
  repeat case_decide; subst; try set_solver.
  unfold base_headers. intros [x Hx].
  repeat (apply lookup_insert_Some in Hx as [[<- _]|[_ Hx]];
          [set_solver|]).
  apply lookup_singleton_Some in Hx as [<- _]. set_solver.
Qed.

(** X2: a call that does not return a body (it returns [None] or raises)
    leaves the cache file as it was. *)
Theorem polite_fetch_cache_frame (w : World) (url : pystr) (max_retries : Z)
    (st st' : Sys) (res : result (option pystr)) :
  polite_fetch w url max_retries st = (res, st') →
  (∀ body, res ≠ Ok (Some body)) →
  cache st' = cache st.
Proof.
  unfold polite_fetch. intros Hrun Hres.
  pose proof (fetch_loop_cache_frame w
                (request_headers (_load_cache (cache st)))
                (_load_cache (cache st)) url max_retries
                (Z.to_nat max_retries) 1 1 st) as Hframe.
  rewrite Hrun in Hframe. by apply Hframe.
Qed.

(** X3: the sleeps of a call.  There are at most [max_retries] of them, the
    [i]-th (from 0) is [time.sleep(min(2^i, 30) + 0.1 * t)] with [t] either
    0 or the number of an attempt, and nothing that was slept before is
    forgotten. *)
Theorem polite_fetch_backoff (w : World) (url : pystr) (max_retries : Z)
    (st : Sys) :
  ∃ naps,
    slept (snd (polite_fetch w url max_retries st)) = slept st ++ naps
    ∧ Z.of_nat (length naps) ≤ Z.max 0 max_retries
    ∧ ∀ (i : nat) (x : nap),
        naps !! i = Some x →
        nap_backoff x = Z.min (2 ^ Z.of_nat i) 30
        ∧ 0 ≤ nap_tenths x ≤ max_retries.
Proof.
  unfold polite_fetch.
  destruct (fetch_loop_naps w (request_headers (_load_cache (cache st)))
              (_load_cache (cache st)) url max_retries
              (Z.to_nat max_retries) 1 1 st) as (naps & Hs & Hlen & Hnaps).
  exists naps. split; [done|]. split; [lia|].
  intros i x Hx. destruct (Hnaps i x Hx) as [Hb Ht].
  apply lookup_lt_Some in Hx.
  rewrite next_backoff_iter in Hb. split; [done|]. lia.
Qed.

(** X4: a body comes from an answer of 200 to one of the attempts; when the
    cache file can be written, the next request revalidates with what that
    answer carried: its [ETag] and [Last-Modified] when they are non-empty,
    the stored values otherwise. *)
Theorem polite_fetch_stores_validators (w : World) (url : pystr)
    (max_retries : Z) (st st' : Sys) (body : pystr) :
  polite_fetch w url max_retries st = (Ok (Some body), st') →
  cache_write w = WriteOk →
  let cache0 := _load_cache (cache st) in
  ∃ k r,
    1 ≤ k ≤ max_retries
    ∧ client_get w (request_headers cache0) url k = Responds r
    ∧ status_code r = 200
    ∧ body = r_text r
    ∧ request_headers (_load_cache (cache st')) !! "If-None-Match"%string
      = validator_header (py_or (hdr_etag r) (dict_get cache0 "etag"))
    ∧ request_headers (_load_cache (cache st')) !! "If-Modified-Since"%string
      = validator_header
          (py_or (hdr_last_modified r) (dict_get cache0 "last_modified"))
    ∧ dict_get (_load_cache (cache st')) "fetched_at"
      = Some (utcnow_isoformat w).
Proof.
  intros Hrun Hwrite cache0. unfold polite_fetch in Hrun.
  apply fetch_loop_body_inv in Hrun
    as (k & r & Hk & Hget & H200 & Hbody & Hcache).
  exists k, r. split; [lia|]. do 3 (split; [done|]).
  rewrite Hcache, Hwrite. fold cache0.
  change (_load_cache (_save_cache WriteOk (new_cache_record w cache0 r)
                         (cache st)))
    with (new_cache_record w cache0 r).
  destruct (request_headers_lookups (new_cache_record w cache0 r))
    as (_ & _ & _ & _ & -> & -> & _).
  unfold dict_get, new_cache_record.
  repeat split; by simplify_map_eq.
Qed.

(** X5: an [HTTPError] is raised only on the attempt numbered
    [max_retries], by a transport failure or by an error status other than
    429 and 503 on that attempt. *)
Theorem polite_fetch_error_last (w : World) (url : pystr) (max_retries : Z)
    (st : Sys) :
  fst (polite_fetch w url max_retries st) = Raise HTTPError →
  let headers := request_headers (_load_cache (cache st)) in
  1 ≤ max_retries
  ∧ (client_get w headers url max_retries = Throws HTTPError
     ∨ ∃ r, client_get w headers url max_retries = Responds r
            ∧ status_raises (status_code r) = true
            ∧ status_code r ≠ 200 ∧ status_code r ≠ 304
            ∧ status_code r ≠ 429 ∧ status_code r ≠ 503).
Proof.
  intros Hrun headers. unfold polite_fetch in Hrun.
  apply fetch_loop_error_inv in Hrun as [Hk Hwhy].
  split; [lia|done].
Qed.

(** X6: an exception other than an [HTTPError] is not retried: after the
    attempts before it were retried it leaves the call at once, the cache
    file as it was. *)
Theorem polite_fetch_other_exception (w : World) (url : pystr)
    (max_retries : Z) (st : Sys) (k : Z) (e : exn) :
  let headers := request_headers (_load_cache (cache st)) in
  1 ≤ k ≤ max_retries →
  (∀ i, 1 ≤ i < k → retried w headers url i = true) →
  client_get w headers url k = Throws e →
  e ≠ HTTPError →
  ∃ naps, Z.of_nat (length naps) ≤ k - 1
          ∧ polite_fetch w url max_retries st
            = (Raise e, {| cache := cache st; slept := slept st ++ naps |}).
Proof.
  intros headers Hk Hretry Hget He. unfold polite_fetch. fold headers.
  destruct (fetch_loop_reach w headers (_load_cache (cache st)) url
              max_retries (S (Z.to_nat (max_retries - k)))
              (Z.to_nat (k - 1)) 1 1 st) as (b & naps & Hlen & Hrun).
  - lia.
  - intros i Hi. apply Hretry. lia.
  - exists naps. split; [lia|].
    replace (Z.to_nat max_retries)
      with (Z.to_nat (k - 1) + S (Z.to_nat (max_retries - k)))%nat by lia.
    rewrite Hrun. simpl.
    replace (1 + Z.of_nat (Z.to_nat (k - 1))) with k by lia.
    rewrite Hget. by destruct e.
Qed.

(** X7: a successful attempt after retried ones: the body of the answer is
    returned, the new record is handed to [_save_cache], and nothing is
    slept for that attempt. *)
Theorem polite_fetch_200 (w : World) (url : pystr) (max_retries : Z)
    (st : Sys) (k : Z) (r : response) :
  let cache0 := _load_cache (cache st) in
  let headers := request_headers cache0 in
  1 ≤ k ≤ max_retries →
  (∀ i, 1 ≤ i < k → retried w headers url i = true) →
  client_get w headers url k = Responds r →
  status_code r = 200 →
  ∃ naps, Z.of_nat (length naps) ≤ k - 1
          ∧ polite_fetch w url max_retries st
            = (Ok (Some (r_text r)),
               {| cache := _save_cache (cache_write w)
                             (new_cache_record w cache0 r) (cache st);
                  slept := slept st ++ naps |}).
Proof.
  intros cache0 headers Hk Hretry Hget H200. unfold polite_fetch.
  fold cache0 headers.
  destruct (fetch_loop_reach w headers cache0 url
              max_retries (S (Z.to_nat (max_retries - k)))
              (Z.to_nat (k - 1)) 1 1 st) as (b & naps & Hlen & Hrun).
  - lia.
  - intros i Hi. apply Hretry. lia.
  - exists naps. split; [lia|].
    replace (Z.to_nat max_retries)
      with (Z.to_nat (k - 1) + S (Z.to_nat (max_retries - k)))%nat by lia.
    rewrite Hrun. simpl.
    replace (1 + Z.of_nat (Z.to_nat (k - 1))) with k by lia.
    by rewrite Hget, H200.
Qed.


End FetchExtras.

(** * Further properties of the normaliser *)

Section TextShape.

Lemma lstrip_by_suffix (p : N → bool) (s : pystr) :
  ∃ pre, s = pre ++ lstrip_by p s ∧ Forall (fun c => p c = true) pre.
Proof.
  induction s as [|c s (pre & Hs & Hpre)]; simpl.
  - by exists [].
  - destruct (p c) eqn:Hc.
    + exists (c :: pre). split; [by rewrite <- app_comm_cons, <- Hs|].
      by constructor.
    + by exists [].
Qed.

Lemma lstrip_by_head (p : N → bool) (s : pystr) (c : N) :
  head (lstrip_by p s) = Some c → p c = false.
Proof.
  induction s as [|x s IH]; simpl; [done|].
  destruct (p x) eqn:Hx; [done|]. simpl. by intros [= <-].
Qed.

Lemma lstrip_by_last (p : N → bool) (s : pystr) (c : N) :
  last (lstrip_by p s) = Some c → last s = Some c.
Proof.
  destruct (lstrip_by_suffix p s) as (pre & Hs & _).
  destruct (lstrip_by p s) as [|x t] eqn:Ht; [done|].
  intros Hlast. rewrite Hs, last_app, Hlast. done.
Qed.

Lemma last_rev {A} (l : list A) : last (rev l) = head l.
Proof. destruct l as [|a l]; [done|]. simpl. apply last_snoc. Qed.

Lemma head_rev {A} (l : list A) : head (rev l) = last l.
Proof. by rewrite <- (last_rev (rev l)), rev_involutive. Qed.

Lemma rstrip_by_prefix (p : N → bool) (s : pystr) :
  ∃ post, s = rstrip_by p s ++ post ∧ Forall (fun c => p c = true) post.
Proof.
  unfold rstrip_by.
  destruct (lstrip_by_suffix p (rev s)) as (pre & Hs & Hpre).
  exists (rev pre). split; [|by apply Forall_rev].
  rewrite <- rev_app_distr, <- Hs. by rewrite rev_involutive.
Qed.

Lemma rstrip_by_last (p : N → bool) (s : pystr) (c : N) :
  last (rstrip_by p s) = Some c → p c = false.
Proof.
  unfold rstrip_by. rewrite last_rev. apply lstrip_by_head.
Qed.

Lemma rstrip_by_head (p : N → bool) (s : pystr) (c : N) :
  head (rstrip_by p s) = Some c → head s = Some c.
Proof.
  unfold rstrip_by. rewrite head_rev. intros H%lstrip_by_last.
  by rewrite last_rev in H.
Qed.

Lemma strip_by_ends (p : N → bool) (s : pystr) :
  (∀ c, head (strip_by p s) = Some c → p c = false)
  ∧ (∀ c, last (strip_by p s) = Some c → p c = false).
Proof.
  unfold strip_by. split; intros c H.
  - apply rstrip_by_head in H. by apply lstrip_by_head in H.
  - by apply rstrip_by_last in H.
Qed.

Lemma strip_trimmed (s : pystr) : trimmed (strip s).
Proof. apply strip_by_ends. Qed.

Lemma single_spaced_cons (a : N) (s : pystr) :
  single_spaced (a :: s)
  = match s with
    | b :: _ => negb (is_space a && is_space b) && single_spaced s
    | [] => true
    end.
Proof. done. Qed.

Lemma single_spaced_app_inv (s t : pystr) :
  single_spaced (s ++ t) = true →
  single_spaced s = true ∧ single_spaced t = true.
Proof.
  induction s as [|a s IH]; [done|].
  destruct s as [|b s].
  - destruct t as [|x t]; [done|].
    change ([a] ++ x :: t) with (a :: x :: t).
    rewrite single_spaced_cons. by intros [_ ?]%andb_true_iff.
  - change ((a :: b :: s) ++ t) with (a :: (b :: s) ++ t).
    rewrite (single_spaced_cons a ((b :: s) ++ t)).
    rewrite (single_spaced_cons a (b :: s)).
    change ((b :: s) ++ t) with (b :: s ++ t) at 1.
    intros [Hab Hrest]%andb_true_iff.
    destruct (IH Hrest) as [Hs Ht]. by rewrite Hab, Hs.
Qed.

Lemma single_spaced_snoc (s : pystr) (c : N) :
  is_space c = false → single_spaced s = true →
  single_spaced (s ++ [c]) = true.
Proof.
  intros Hc. induction s as [|a s IH]; [done|].
  destruct s as [|b s].
  - intros _. change ([a] ++ [c]) with (a :: [c]).
    rewrite single_spaced_cons. by rewrite Hc, andb_false_r.
  - change ((a :: b :: s) ++ [c]) with (a :: (b :: s) ++ [c]).
    rewrite (single_spaced_cons a ((b :: s) ++ [c])).
    rewrite (single_spaced_cons a (b :: s)).
    change ((b :: s) ++ [c]) with (b :: s ++ [c]) at 1.
    intros [Hab Hrest]%andb_true_iff. by rewrite Hab, IH.
Qed.

(** What is put in front of a character that is not whitespace. *)
Lemma single_spaced_before (run : pystr) (c : N) (s : pystr) :
  (length run ≤ 1)%nat → is_space c = false →
  single_spaced (c :: s) = true →
  single_spaced (run ++ c :: s) = true.
Proof.
  intros Hrun Hc Hs. destruct run as [|a [|b run]]; simpl in Hrun; [done| |lia].
  change ([a] ++ c :: s) with (a :: c :: s).
  rewrite single_spaced_cons, Hs, Hc, andb_false_r. done.
Qed.

Lemma single_spaced_head_free (c : N) (s : pystr) :
  is_space c = false → single_spaced s = true →
  single_spaced (c :: s) = true.
Proof.
  intros Hc Hs. rewrite single_spaced_cons. destruct s; [done|].
  by rewrite Hc, Hs.
Qed.

Lemma sub_spaces_single_spaced (s : pystr) :
  ∀ run,
    single_spaced
      (sub_runs (fun run => if (2 <=? length run)%nat then [SPACE] else run)
         run s) = true.
Proof.
  induction s as [|c s IH]; intros run; cbn [sub_runs].
  - destruct (Nat.leb_spec 2 (length run)) as [|Hrun]; [done|].
    destruct run as [|a [|b run]]; simpl in Hrun; [done|done|lia].
  - destruct (is_space c) eqn:Hc; [apply IH|].
    apply single_spaced_before; [|done|].
    + destruct (Nat.leb_spec 2 (length run)); simpl; lia.
    + by apply single_spaced_head_free.
Qed.

End TextShape.

Section NormalizerExtras.

Context `{L : PyLibs}.

Lemma strip_single_spaced (s : pystr) :
  single_spaced s = true → single_spaced (strip s) = true.
Proof.
  intros Hs. unfold strip, strip_by.
  destruct (lstrip_by_suffix is_space s) as (pre & Hpre & _).
  rewrite Hpre in Hs. apply single_spaced_app_inv in Hs as [_ Hs].
  destruct (rstrip_by_prefix is_space (lstrip_by is_space s))
    as (post & Hpost & _).
  rewrite Hpost in Hs. by apply single_spaced_app_inv in Hs as [Hs _].
Qed.

Lemma summary_text_shape (html : pystr) :
  trimmed (summary_text html) ∧ single_spaced (summary_text html) = true.
Proof.
  unfold summary_text. destruct (truthy html); simpl; [|by split].
  split; [apply strip_trimmed|].
  apply strip_single_spaced, sub_spaces_single_spaced.
Qed.

Lemma ellipsis_not_space : is_space ELLIPSIS = false.
Proof. reflexivity. Qed.

Lemma html_to_text_bound (html : pystr) :
  (length (_html_to_text html) ≤ MAX_SUMMARY_CHARS + 1)%nat.
Proof.
  rewrite html_to_text_cases.
  destruct (Nat.ltb_spec MAX_SUMMARY_CHARS (length (summary_text html)));
    [|lia].
  rewrite length_app. simpl.
  pose proof (rstrip_by_length is_space
                (firstn MAX_SUMMARY_CHARS (summary_text html))) as Hr.
  rewrite length_take in Hr. unfold rstrip, MAX_SUMMARY_CHARS in *. lia.
Qed.

Lemma html_to_text_ends_spacing (html : pystr) :
  trimmed (_html_to_text html)
  ∧ single_spaced (_html_to_text html) = true.
Proof.
  rewrite html_to_text_cases.
  destruct (summary_text_shape html) as [[Hhead Hlast] Hsingle].
  destruct (MAX_SUMMARY_CHARS <? length (summary_text html))%nat eqn:Hlong;
    [|done].
  set (cut := firstn MAX_SUMMARY_CHARS (summary_text html)).
  split; [split|].
  - intros c Hc. rewrite head_app in Hc.
    destruct (rstrip cut) as [|x t] eqn:Hr.
    + injection Hc as <-. apply ellipsis_not_space.
    + simpl in Hc. injection Hc as <-. apply Hhead.
      assert (Hx : head (rstrip cut) = Some x) by by rewrite Hr.
      apply rstrip_by_head in Hx. unfold cut in Hx.
      destruct (summary_text html); [by rewrite take_nil in Hx|done].
  - intros c. rewrite last_snoc. intros [= <-]. apply ellipsis_not_space.
  - apply single_spaced_snoc; [apply ellipsis_not_space|].
    destruct (rstrip_by_prefix is_space cut) as (post & Hpost & _).
    assert (Hcut : single_spaced cut = true).
    { rewrite <- (take_drop MAX_SUMMARY_CHARS (summary_text html)) in Hsingle.
      by apply single_spaced_app_inv in Hsingle as [? _]. }
    rewrite Hpost in Hcut. by apply single_spaced_app_inv in Hcut as [? _].
Qed.

(** X9: whatever the markup, the summary neither starts nor ends with
    whitespace and never has two whitespace characters in a row. *)
Theorem html_to_text_shape (html : pystr) :
  trimmed (_html_to_text html)
  ∧ single_spaced (_html_to_text html) = true.
Proof. apply html_to_text_ends_spacing. Qed.

Lemma normalize_all_length (es : list RawEntry) (its : list Item) :
  normalize_all es = Ok its → length its = length es.
Proof.
  intros H%normalize_all_Forall2. symmetry. by eapply Forall2_length.
Qed.

(** X11: a parsed feed has one item for each entry: the result is a
    rearrangement of the entries' normal forms, none lost and none added. *)
Theorem parse_feed_permutation (xml : pystr) (items : list Item) :
  parse_feed xml = Ok items →
  ∃ its, normalize_all (feedparser_entries xml) = Ok its
         ∧ items ≡ₚ its
         ∧ length items = length (feedparser_entries xml).
Proof.
  unfold parse_feed. intros H.
  destruct (normalize_all (feedparser_entries xml)) as [its|] eqn:Hn;
    simpl in H; [|done].
  injection H as <-. exists its. split; [done|].
  split; [apply sort_desc_perm|].
  rewrite sort_desc_perm. by apply normalize_all_length.
Qed.

Lemma str_lt_irrefl (a : pystr) : str_lt a a = false.
Proof. unfold str_lt. by rewrite str_compare_refl. Qed.

Lemma insert_desc_with_key (k : pystr) (x : Item) (l : list Item) :
  with_key k (insert_desc x l) = with_key k (x :: l).
Proof.
  induction l as [|y l IH]; [done|].
  cbn [insert_desc].
  destruct (str_lt (sort_key x) (sort_key y)) eqn:Hlt; [|done].
  unfold with_key in *. cbn [List.filter] in *. rewrite IH.
  case_bool_decide as Hy; [|done].
  case_bool_decide as Hx; [|done].
  rewrite Hx, Hy, str_lt_irrefl in Hlt. done.
Qed.

Lemma sort_desc_with_key (k : pystr) (l : list Item) :
  with_key k (sort_desc l) = with_key k l.
Proof.
  induction l as [|x l IH]; [done|].
  cbn [sort_desc foldr]. rewrite insert_desc_with_key.
  unfold with_key in *. cbn [List.filter]. fold (sort_desc l).
  by rewrite IH.
Qed.

(** X12: the sort is stable.  Items with the same [published_ny] (the
    undated ones among themselves, too) come out in the order their entries
    have in the feed. *)
Theorem parse_feed_stable (xml : pystr) (items its : list Item) (k : pystr) :
  parse_feed xml = Ok items →
  normalize_all (feedparser_entries xml) = Ok its →
  with_key k items = with_key k its.
Proof.
  unfold parse_feed. intros H Hn. rewrite Hn in H. simpl in H.
  injection H as <-. apply sort_desc_with_key.
Qed.

End NormalizerExtras.

Section ItemExtras.

Context `{L : PyLibs}.

Lemma extract_tags_length (text : pystr) :
  (length (_extract_tags text) ≤ 14)%nat.
Proof.
  rewrite extract_tags_filter, length_map.
  etransitivity; [apply List.filter_length_le|]. done.
Qed.

(** X13: keyword tagging is bounded by the table: at most 14 tags, each
    one a tag of the table, whatever the text. *)
Theorem extract_tags_bounded (text : pystr) :
  (length (_extract_tags text) ≤ 14)%nat
  ∧ ∀ tag, tag ∈ _extract_tags text → tag ∈ List.map snd KEYWORD_TAGS.
Proof.
  split; [apply extract_tags_length|].
  intros tag. apply extract_tags_in_table.
Qed.

Lemma add_section_tag_length (sec : option pystr) (kw : list pystr) :
  (length (add_section_tag sec kw) ≤ S (length kw))%nat.
Proof.
  destruct sec as [s|]; simpl; [|lia].
  destruct (truthy s && negb (bool_decide (s ∈ kw))); simpl; lia.
Qed.

Lemma add_section_tag_elem (sec : option pystr) (kw : list pystr) (t : pystr) :
  t ∈ add_section_tag sec kw → t ∈ kw ∨ sec = Some t.
Proof.
  destruct sec as [s|]; simpl; [|by left].
  destruct (truthy s && negb (bool_decide (s ∈ kw))); [|by left].
  intros [->|?]%elem_of_cons; [by right|by left].
Qed.

(** X14: the shape of every item of a parsed feed.  Title, link and summary
    have no whitespace at their ends; the summary has no two whitespace
    characters in a row and at most [MAX_SUMMARY_CHARS + 1] characters;
    there are at most 15 tags, each a tag of the table or the section tag
    of the link. *)
Theorem parse_feed_item_shape (xml : pystr) (items : list Item) (it : Item) :
  parse_feed xml = Ok items → it ∈ items →
  trimmed (title it) ∧ trimmed (link it) ∧ trimmed (summary it)
  ∧ single_spaced (summary it) = true
  ∧ (length (summary it) ≤ MAX_SUMMARY_CHARS + 1)%nat
  ∧ (length (tags it) ≤ 15)%nat
  ∧ ∀ t, t ∈ tags it →
         t ∈ List.map snd KEYWORD_TAGS
         ∨ _section_tag_from_url (link it) = Some t.
Proof.
  intros Hparse Hin.
  destruct (parse_feed_items xml items it Hparse Hin) as (e & _ & He).
  apply normalize_entry_fields in He as (-> & Hlink & Hsum & Htags).
  split; [apply strip_trimmed|].
  split; [rewrite Hlink; apply strip_trimmed|].
  rewrite Hsum.
  destruct (html_to_text_ends_spacing (or_empty (e_summary e)))
    as [Htrim Hsingle].
  do 2 (split; [done|]).
  split; [apply html_to_text_bound|].
  rewrite Htags. split.
  - etransitivity; [apply add_section_tag_length|].
    match goal with
    | |- context [_extract_tags ?t] => pose proof (extract_tags_length t)
    end. lia.
  - intros t [Hkw| ->]%add_section_tag_elem; [|by right].
    left. by eapply extract_tags_in_table.
Qed.

Lemma to_ny_beyond (dt : datetime) :
  beyond_new_york dt → ∃ x, _to_ny dt = Raise x.
Proof.
  unfold beyond_new_york, _to_ny, utcoffset_in_range, datetime_in_range.
  replace (default 0 (utcoffset dt))
    with (match utcoffset dt with Some o => o | None => 0 end)
    by by destruct (utcoffset dt).
  generalize (match utcoffset dt with Some o => o | None => 0 end).
  intros off Hbad.
  destruct ((- US_PER_DAY <? off) && (off <? US_PER_DAY)) eqn:Hoff;
    [|by eexists].
  destruct ((0 <=? wall dt - off) && (wall dt - off <=? DATETIME_MAX))
    eqn:Hutc; [|by eexists].
  destruct ((0 <=? wall dt - off + ny_utcoffset (wall dt - off))
            && (wall dt - off + ny_utcoffset (wall dt - off)
                <=? DATETIME_MAX)) eqn:Hny; [|by eexists].
  exfalso.
  apply andb_true_iff in Hoff as [?%Z.ltb_lt ?%Z.ltb_lt].
  apply andb_true_iff in Hutc as [?%Z.leb_le ?%Z.leb_le].
  apply andb_true_iff in Hny as [?%Z.leb_le ?%Z.leb_le].
  destruct Hbad as [Hbad|[Hbad|Hbad]]; apply Hbad; by split.
Qed.

Lemma normalize_all_date_raise (es : list RawEntry) (e : RawEntry)
    (dt : datetime) (x : exn) :
  e ∈ es → entry_datetime e = Some dt → _to_ny dt = Raise x →
  ∃ y, normalize_all es = Raise y.
Proof.
  intros Hin Hdt Hny.
  induction es as [|e' es IH]; [by apply elem_of_nil in Hin|].
  simpl. destruct (normalize_entry e') as [it|y] eqn:He; [|by eexists].
  apply elem_of_cons in Hin as [<-|Hin].
  - unfold normalize_entry in He. fold (entry_datetime e) in He.
    rewrite Hdt, Hny in He. done.
  - destruct (IH Hin) as [y ->]. by eexists.
Qed.

(** X15: one date that cannot be read in New York fails the whole feed.
    When some entry, wherever it stands in the feed, resolves to a datetime
    whose offset is a day or more, or whose UTC instant or New York reading
    lies outside the datetime range, [parse_feed] raises and returns no
    item. *)
Theorem parse_feed_date_out_of_range (xml : pystr) (e : RawEntry)
    (dt : datetime) :
  e ∈ feedparser_entries xml →
  entry_datetime e = Some dt →
  beyond_new_york dt →
  ∃ x, parse_feed xml = Raise x.
Proof.
  intros Hin Hdt [x Hny]%to_ny_beyond. unfold parse_feed.
  destruct (normalize_all_date_raise _ _ _ _ Hin Hdt Hny) as [y ->].
  by eexists.
Qed.

End ItemExtras.

Section SectionTagExtras.

Context `{L : PyLibs}.

Lemma lstrip_by_all (p : N → bool) (s : pystr) :
  Forall (fun c => p c = true) s → lstrip_by p s = [].
Proof.
  induction 1 as [|c s Hc _ IH]; simpl; [done|]. by rewrite Hc.
Qed.

Lemma strip_by_nil_iff (p : N → bool) (s : pystr) :
  strip_by p s = [] ↔ Forall (fun c => p c = true) s.
Proof.
  unfold strip_by. split.
  - intros Hnil.
    destruct (rstrip_by_prefix p (lstrip_by p s)) as (post & Hpost & Hall).
    rewrite Hnil in Hpost. simpl in Hpost.
    destruct (lstrip_by_suffix p s) as (pre & Hs & Hpre).
    destruct (lstrip_by p s) as [|c t] eqn:Hl.
    + rewrite Hs, app_nil_r. done.
    + assert (p c = false) as Hc
        by (apply (lstrip_by_head p s); by rewrite Hl).
      rewrite <- Hpost in Hall. apply Forall_cons in Hall as [Hc' _].
      congruence.
  - intros Hall. rewrite (lstrip_by_all p s Hall). done.
Qed.

Lemma strip_by_subseteq (p : N → bool) (s : pystr) : strip_by p s ⊆ s.
Proof.
  unfold strip_by.
  destruct (lstrip_by_suffix p s) as (pre & Hs & _).
  destruct (rstrip_by_prefix p (lstrip_by p s)) as (post & Hpost & _).
  intros c Hc. rewrite Hs, Hpost. set_solver.
Qed.

Lemma before_first_elem (sep c : N) (s : pystr) :
  c ∈ before_first sep s → c ∈ s ∧ c ≠ sep.
Proof.
  induction s as [|x s IH]; simpl; [by intros ?%elem_of_nil|].
  destruct (N.eqb_spec x sep) as [->|Hne]; [by intros ?%elem_of_nil|].
  intros [->|Hin]%elem_of_cons; [split; [by left|done]|].
  destruct (IH Hin). split; [by right|done].
Qed.

Lemma before_first_nil (sep : N) (s : pystr) :
  before_first sep s = [] → s = [] ∨ head s = Some sep.
Proof.
  destruct s as [|x s]; simpl; [by left|].
  destruct (N.eqb_spec x sep) as [->|Hne]; [by right|done].
Qed.

Lemma upper_ascii (s : pystr) :
  forallb is_ascii s = true → upper s = List.map ascii_upper s.
Proof.
  induction s as [|c s IH]; simpl; [done|].
  intros [Hc Hs]%andb_true_iff. unfold upper in *. simpl.
  unfold upper_char at 1. rewrite Hc. simpl. by rewrite IH.
Qed.

Lemma forallb_is_ascii_elem (s : pystr) (c : N) :
  forallb is_ascii s = true → c ∈ s → is_ascii c = true.
Proof.
  rewrite forallb_forall. intros H Hin. by apply H, list_elem_of_In.
Qed.

(** X16: when a section tag is made.  There is none exactly when the link
    has no path that [urlparse] can give or the path is made of slashes
    only (the empty path, too); a tag that is made is [#] followed by the
    rest, and for an ASCII path the rest is not empty and holds no hyphen,
    no slash and no lower-case letter. *)
Theorem section_tag_shape (link : pystr) :
  (_section_tag_from_url link = None
   ↔ urlparse_path link = None
     ∨ ∃ p, urlparse_path link = Some p
            ∧ Forall (fun c => c = SLASH) p)
  ∧ ∀ sec, _section_tag_from_url link = Some sec →
           ∃ p body,
             urlparse_path link = Some p
             ∧ sec = HASH :: body
             ∧ (forallb is_ascii p = true →
                body ≠ []
                ∧ Forall (fun c => c ≠ HYPHEN ∧ c ≠ SLASH
                                   ∧ ¬ (97 ≤ c ≤ 122)%N) body).
Proof.
  unfold _section_tag_from_url.
  destruct (urlparse_path link) as [p|]; [|split; [split; [by left|done]|done]].
  set (path := strip_by is_slash p).
  assert (Hall : Forall (fun c => c = SLASH) p
                 ↔ Forall (fun c => is_slash c = true) p).
  { apply Forall_iff. intros c. unfold is_slash. by rewrite N.eqb_eq. }
  assert (Hfirst : before_first SLASH path = [] ↔ path = []).
  { split; [|by intros ->].
    intros [Hnil|Hhead]%before_first_nil; [done|].
    destruct (strip_by_ends is_slash p) as [Hh _]. fold path in Hh.
    apply Hh in Hhead. done. }
  destruct (before_first SLASH path) as [|c first] eqn:Hbf; cbn [truthy].
  - split; [|done]. split; [|done]. intros _. right. exists p.
    split; [done|]. apply Hall, strip_by_nil_iff. by apply Hfirst.
  - split.
    + split; [done|]. intros [?|(p' & [= <-] & Hp)]; [done|].
      apply Hall, strip_by_nil_iff in Hp. fold path in Hp.
      apply Hfirst in Hp. done.
    + intros sec Hsec.
      assert (Hs : sec = upper (HASH :: replace_char HYPHEN UNDERSCORE
                                          (c :: first))) by congruence.
      rewrite upper_hash in Hs. clear Hsec.
      exists p, (upper (replace_char HYPHEN UNDERSCORE (c :: first))).
      split; [done|]. split; [done|].
      intros Hascii.
      assert (Hin : ∀ x, x ∈ c :: first →
                         is_ascii x = true ∧ x ≠ SLASH).
      { intros x Hx. rewrite <- Hbf in Hx.
        apply before_first_elem in Hx as [Hx Hne]. split; [|done].
        eapply forallb_is_ascii_elem; [exact Hascii|].
        by apply (strip_by_subseteq is_slash p). }
      rewrite upper_ascii.
      * split; [done|]. unfold replace_char. rewrite List.map_map.
        apply Forall_forall. intros y (x & <- & Hx%list_elem_of_In)
          %list_elem_of_In%in_map_iff.
        destruct (Hin x Hx) as [Hx1 Hx2].
        unfold is_ascii, SLASH, HYPHEN, UNDERSCORE, ascii_upper, in_range in *.
        destruct (N.eqb_spec x 45) as [->|Hhy]; simpl; [lia|].
        destruct (N.leb_spec 97 x), (N.leb_spec x 122); simpl; lia.
      * unfold replace_char. rewrite forallb_forall.
        intros y (x & <- & Hx%list_elem_of_In)%in_map_iff.
        destruct (Hin x Hx) as [Hx1 _].
        destruct (x =? HYPHEN)%N; [done|done].
Qed.

End SectionTagExtras.

Section TagExtras.

Context `{L : PyLibs}.

Lemma ascii_lower_upper (c : N) : ascii_lower (ascii_upper c) = ascii_lower c.
Proof.
  unfold ascii_lower, ascii_upper, in_range.
  destruct (N.leb_spec 97 c), (N.leb_spec c 122); simpl;
    repeat match goal with
           | |- context [(?a <=? ?b)%N] => destruct (N.leb_spec a b)
           end; simpl; lia.
Qed.

Lemma is_ascii_upper (c : N) : is_ascii c = true → is_ascii (ascii_upper c) = true.
Proof.
  unfold is_ascii, ascii_upper, in_range. intros H%N.ltb_lt.
  destruct (N.leb_spec 97 c), (N.leb_spec c 122); simpl; apply N.ltb_lt; lia.
Qed.

Lemma is_ascii_lower (c : N) : is_ascii c = true → is_ascii (ascii_lower c) = true.
Proof.
  unfold is_ascii, ascii_lower, in_range. intros H%N.ltb_lt.
  destruct (N.leb_spec 65 c), (N.leb_spec c 90); simpl; apply N.ltb_lt; lia.
Qed.

Lemma ascii_lower_idem (c : N) : ascii_lower (ascii_lower c) = ascii_lower c.
Proof.
  unfold ascii_lower, in_range.
  destruct (N.leb_spec 65 c), (N.leb_spec c 90); simpl;
    repeat match goal with
           | |- context [(?a <=? ?b)%N] => destruct (N.leb_spec a b)
           end; simpl; lia.
Qed.

Lemma forallb_map_ascii (f : N → N) (s : pystr) :
  (∀ c, is_ascii c = true → is_ascii (f c) = true) →
  forallb is_ascii s = true → forallb is_ascii (List.map f s) = true.
Proof.
  intros Hf. induction s as [|c s IH]; simpl; [done|].
  intros [Hc Hs]%andb_true_iff. by rewrite Hf, IH.
Qed.

Lemma lower_upper_ascii (s : pystr) :
  forallb is_ascii s = true → lower (List.map ascii_upper s) = lower s.
Proof.
  intros Hs. unfold lower.
  rewrite (forallb_map_ascii ascii_upper s is_ascii_upper Hs), Hs.
  rewrite List.map_map. apply map_ext. intros c. apply ascii_lower_upper.
Qed.

Lemma lower_lower_ascii (s : pystr) :
  forallb is_ascii s = true → lower (lower s) = lower s.
Proof.
  intros Hs. unfold lower. rewrite Hs.
  rewrite (forallb_map_ascii ascii_lower s is_ascii_lower Hs).
  rewrite List.map_map. apply map_ext. intros c. apply ascii_lower_idem.
Qed.

(** X17: tagging does not depend on the case of an ASCII text: the text in
    upper case and the text in lower case get the tags of the text. *)
Theorem extract_tags_case_insensitive (text : pystr) :
  forallb is_ascii text = true →
  _extract_tags (List.map ascii_upper text) = _extract_tags text
  ∧ _extract_tags (List.map ascii_lower text) = _extract_tags text.
Proof.
  intros Hascii. unfold _extract_tags. split.
  - by rewrite lower_upper_ascii.
  - replace (List.map ascii_lower text) with (lower text)
      by (unfold lower; by rewrite Hascii).
    by rewrite lower_lower_ascii.
Qed.

Lemma search_bounded_no_word (alts : list regex) (s : pystr) :
  Forall (fun c => is_word c = false) s →
  ∀ prev, is_word_opt prev = false →
          search_from (bounded alts) prev s = false.
Proof.
  induction 1 as [|c s Hc Hs IH]; intros prev Hprev.
  - simpl. unfold matches_at. simpl. by rewrite Hprev.
  - cbn [search_from]. rewrite IH by done. rewrite orb_false_r.
    unfold matches_at. simpl. by rewrite Hprev, Hc.
Qed.

Lemma keyword_patterns_bounded :
  Forall (fun pt : regex * pystr => ∃ alts, fst pt = bounded alts)
    KEYWORD_TAGS.
Proof. repeat constructor; by eexists. Qed.

Lemma extract_tags_no_word (text : pystr) :
  Forall (fun c => is_word c = false) (lower text) →
  _extract_tags text = [].
Proof.
  intros Hnw. rewrite extract_tags_filter.
  assert (Hnone : ∀ table : list (regex * pystr),
             Forall (fun pt => ∃ alts, fst pt = bounded alts) table →
             List.filter (fun pt => re_search (fst pt) (lower text)) table
             = []).
  { induction 1 as [|pt table [alts Hpt] _ IH]; [done|].
    cbn [List.filter]. rewrite Hpt. unfold re_search.
    by rewrite search_bounded_no_word. }
  by rewrite Hnone by apply keyword_patterns_bounded.
Qed.

(** X18: a text without letters, digits and underscores gets no tag (the
    empty text among them): every pattern needs a word boundary. *)
Theorem extract_tags_needs_words (text : pystr) :
  forallb is_ascii text = true →
  Forall (fun c => ascii_alnum c = false ∧ c ≠ UNDERSCORE) text →
  _extract_tags text = [].
Proof.
  intros Hascii Hnw. apply extract_tags_no_word.
  unfold lower. rewrite Hascii. apply Forall_forall.
  intros y (c & <- & Hc%list_elem_of_In)%list_elem_of_In%in_map_iff.
  apply (proj1 (Forall_forall _ _) Hnw) in Hc as Hc'.
  destruct Hc' as [Halnum Hund].
  pose proof (forallb_is_ascii_elem text c Hascii Hc) as Hasc.
  assert (ascii_lower c = c) as ->.
  { unfold ascii_lower. unfold ascii_alnum in Halnum.
    destruct (in_range 65 90 c); [|done].
    by rewrite orb_true_r in Halnum. }
  unfold is_word. rewrite Hasc, Halnum. simpl. by apply N.eqb_neq.
Qed.

End TagExtras.

(** * Further properties of the filter stage and of [get_digest] *)

Section FilterExtras.

Context `{L : PyLibs}.

Lemma is_recent_dated (cutoff : Z) (it : Item) :
  dated_since cutoff it → is_recent cutoff it = Ok true.
Proof.
  intros (s & dt & Hs & Hne & Hdt & Hle). unfold is_recent.
  rewrite Hs. destruct s as [|c s]; [done|]. simpl. rewrite Hdt.
  by apply Z.leb_le in Hle as ->.
Qed.

Lemma is_recent_raise (cutoff : Z) (it : Item) (x : exn) :
  is_recent cutoff it = Raise x ↔ unparsable it ∧ x = DateParseError.
Proof.
  unfold is_recent, unparsable. split.
  - destruct (published_ny it) as [s|]; [|done].
    destruct s as [|c s]; [done|]. simpl.
    destruct (dtparse_parse (c :: s)) eqn:Hp; [done|].
    intros [= <-]. split; [|done]. by exists (c :: s).
  - intros [(s & -> & Hne & Hp) ->]. destruct s as [|c s]; [done|].
    simpl. by rewrite Hp.
Qed.

Lemma keep_recent_sublist (cutoff : Z) (items : list Item) :
  ∀ kept, keep_recent cutoff items = Ok kept → kept `sublist_of` items.
Proof.
  induction items as [|it items IH]; simpl; intros kept H.
  - injection H as <-. constructor.
  - destruct (is_recent cutoff it) as [keep|]; simpl in H; [|done].
    destruct (keep_recent cutoff items) as [kept'|]; simpl in H; [|done].
    injection H as <-.
    destruct keep; [by apply sublist_skip, IH|by apply sublist_cons, IH].
Qed.

Lemma keep_recent_complete (cutoff : Z) (items : list Item) :
  ∀ kept, keep_recent cutoff items = Ok kept →
          ∀ it, it ∈ items → dated_since cutoff it → it ∈ kept.
Proof.
  induction items as [|x items IH]; simpl; intros kept H it Hin Hd.
  - by apply elem_of_nil in Hin.
  - destruct (is_recent cutoff x) as [keep|] eqn:Hx; simpl in H; [|done].
    destruct (keep_recent cutoff items) as [kept'|]; simpl in H; [|done].
    injection H as <-.
    apply elem_of_cons in Hin as [->|Hin].
    + rewrite (is_recent_dated cutoff x Hd) in Hx. injection Hx as <-.
      by left.
    + specialize (IH kept' eq_refl it Hin Hd).
      destruct keep; [by right|done].
Qed.

Lemma keep_recent_all (cutoff : Z) (items : list Item) :
  Forall (dated_since cutoff) items → keep_recent cutoff items = Ok items.
Proof.
  induction 1 as [|it items Hit _ IH]; simpl; [done|].
  by rewrite (is_recent_dated cutoff it Hit), IH.
Qed.

Lemma keep_recent_raise (cutoff : Z) (items : list Item) :
  (∃ it, it ∈ items ∧ unparsable it) →
  keep_recent cutoff items = Raise DateParseError.
Proof.
  induction items as [|x items IH]; intros (it & Hin & Hbad).
  - by apply elem_of_nil in Hin.
  - simpl. destruct (is_recent cutoff x) as [keep|y] eqn:Hx; simpl.
    + rewrite IH; [done|].
      apply elem_of_cons in Hin as [->|Hin]; [|by exists it].
      assert (is_recent cutoff x = Raise DateParseError) as Hr
        by by apply is_recent_raise.
      congruence.
    + by apply is_recent_raise in Hx as [_ ->].
Qed.

Lemma keep_recent_ok (cutoff : Z) (items : list Item) :
  (∀ it, it ∈ items → ¬ unparsable it) →
  ∃ kept, keep_recent cutoff items = Ok kept.
Proof.
  induction items as [|x items IH]; intros Hgood; simpl; [by eexists|].
  destruct (is_recent cutoff x) as [keep|y] eqn:Hx; simpl.
  - destruct IH as [kept ->]; [intros it ?; apply Hgood; by right|].
    by eexists.
  - apply is_recent_raise in Hx as [Hbad _].
    destruct (Hgood x); [by left|done].
Qed.

Lemma cutoff_computed (now h : Z) :
  cutoff_in_range now h →
  timedelta_hours h = Ok (h * US_PER_HOUR)
  ∧ datetime_sub now (h * US_PER_HOUR) = Ok (now - h * US_PER_HOUR).
Proof.
  intros [Hd [Hlo Hhi]]. unfold timedelta_hours, datetime_sub, datetime_in_range.
  apply Z.leb_le in Hd, Hlo, Hhi. by rewrite Hd, Hlo, Hhi.
Qed.

Lemma cutoff_overflow (now h : Z) :
  ¬ cutoff_in_range now h →
  timedelta_hours h = Raise OverflowError
  ∨ (timedelta_hours h = Ok (h * US_PER_HOUR)
     ∧ datetime_sub now (h * US_PER_HOUR) = Raise OverflowError).
Proof.
  intros Hno. unfold timedelta_hours.
  destruct (Z.leb_spec (Z.abs (h * US_PER_HOUR / US_PER_DAY))
              TIMEDELTA_MAX_DAYS) as [Hd|Hd]; [|by left].
  right. split; [done|]. unfold datetime_sub, datetime_in_range.
  destruct (Z.leb_spec 0 (now - h * US_PER_HOUR)) as [Hlo|Hlo]; [|done].
  destruct (Z.leb_spec (now - h * US_PER_HOUR) DATETIME_MAX) as [Hhi|Hhi];
    [|done].
  destruct Hno. by repeat split.
Qed.

Lemma cutoff_in_range_dec (now h : Z) :
  {cutoff_in_range now h} + {¬ cutoff_in_range now h}.
Proof. unfold cutoff_in_range. exact (decide _). Qed.

Lemma filter_items_overflow (now : Z) (items : list Item) (h : Z)
    (limit : option Z) :
  h ≠ 0 → ¬ cutoff_in_range now h →
  filter_items now items (Some h) limit = Raise OverflowError.
Proof.
  intros Hh%Z.eqb_neq [Htd|[Htd Hsub]]%cutoff_overflow;
    unfold filter_items; rewrite Hh; simpl; rewrite Htd; simpl; [done|].
  by rewrite Hsub.
Qed.

Lemma filter_items_no_window (now : Z) (items : list Item)
    (hours limit : option Z) :
  truthy_int hours = false →
  filter_items now items hours limit = Ok (limited limit items).
Proof.
  unfold filter_items, truthy_int. destruct hours as [h|]; [|done].
  by intros ->.
Qed.

Lemma filter_items_windowed (now : Z) (items : list Item) (h : Z)
    (limit : option Z) :
  h ≠ 0 → cutoff_in_range now h →
  filter_items now items (Some h) limit
  = kept ← keep_recent (now - h * US_PER_HOUR) items; Ok (limited limit kept).
Proof.
  intros Hh%Z.eqb_neq [Htd Hsub]%cutoff_computed.
  unfold filter_items. rewrite Hh. simpl. rewrite Htd. simpl.
  rewrite Hsub. simpl.
  by destruct (keep_recent (now - h * US_PER_HOUR) items).
Qed.

Lemma limited_sublist (limit : option Z) (l : list Item) :
  limited limit l `sublist_of` l.
Proof.
  unfold limited, slice_to. destruct limit as [n|]; [|done].
  destruct (negb (n =? 0)); [|done].
  destruct (0 <=? n); apply sublist_take.
Qed.

Lemma StronglySorted_sublist {A} (R : A → A → Prop) (l1 l2 : list A) :
  l1 `sublist_of` l2 → StronglySorted R l2 → StronglySorted R l1.
Proof.
  induction 1 as [|x l1 l2 Hsub IH|x l1 l2 Hsub IH]; intros Hs; [done| |].
  - apply StronglySorted_inv in Hs as [Hs Hx]. constructor; [by apply IH|].
    apply Forall_forall. intros y Hy.
    apply (proj1 (Forall_forall _ _) Hx). by apply (sublist_subseteq l1 l2).
  - apply StronglySorted_inv in Hs as [Hs _]. by apply IH.
Qed.

Lemma filter_items_window_inv (now : Z) (items : list Item) (h : Z)
    (limit : option Z) (out : list Item) :
  h ≠ 0 →
  filter_items now items (Some h) limit = Ok out →
  cutoff_in_range now h
  ∧ ∃ kept, keep_recent (now - h * US_PER_HOUR) items = Ok kept
            ∧ out = limited limit kept.
Proof.
  intros Hh H. destruct (cutoff_in_range_dec now h) as [Hin|Hout].
  - split; [done|]. rewrite filter_items_windowed in H by done.
    destruct (keep_recent (now - h * US_PER_HOUR) items) as [kept|];
      simpl in H; [|done].
    injection H as <-. by exists kept.
  - by rewrite filter_items_overflow in H.
Qed.

Lemma truthy_int_cases (hours : option Z) :
  truthy_int hours = false ∨ ∃ h, hours = Some h ∧ h ≠ 0.
Proof.
  destruct hours as [h|]; [|by left]. simpl.
  destruct (Z.eqb_spec h 0); [by left|right; by exists h].
Qed.

Lemma filter_items_sublist_of (now : Z) (items : list Item)
    (hours limit : option Z) (out : list Item) :
  filter_items now items hours limit = Ok out → out `sublist_of` items.
Proof.
  intros H. destruct (truthy_int_cases hours) as [Hno|(h & -> & Hh)].
  - rewrite filter_items_no_window in H by done. injection H as <-.
    apply limited_sublist.
  - apply filter_items_window_inv in H as (_ & kept & Hk & ->); [|done].
    etransitivity; [apply limited_sublist|].
    by eapply keep_recent_sublist.
Qed.

(** X19: filtering only removes items.  What [filter_items] returns is the
    input with some items left out and the order kept, so a list sorted by
    recency stays sorted. *)
Theorem filter_items_sublist (now : Z) (items : list Item)
    (hours limit : option Z) (out : list Item) :
  filter_items now items hours limit = Ok out →
  out `sublist_of` items
  ∧ (StronglySorted key_ge items → StronglySorted key_ge out).
Proof.
  intros Hsub%filter_items_sublist_of.
  split; [done|]. by apply StronglySorted_sublist.
Qed.

(** X20: without a limit a window keeps precisely the items inside it: an
    item is returned exactly when it is in the input and has a date that
    parses to a reading at or after the cutoff. *)
Theorem filter_items_window_complete (now : Z) (items : list Item) (h : Z)
    (out : list Item) :
  h ≠ 0 →
  filter_items now items (Some h) None = Ok out →
  ∀ it, it ∈ out
        ↔ it ∈ items ∧ dated_since (now - h * US_PER_HOUR) it.
Proof.
  intros Hh H it.
  apply filter_items_window_inv in H as (_ & kept & Hk & ->); [|done].
  simpl. split.
  - intros Hin. destruct (keep_recent_spec _ _ _ Hk) as [Hall Hsub].
    split; [by apply Hsub|].
    by apply (proj1 (Forall_forall _ _) Hall).
  - intros [Hin Hd]. by eapply keep_recent_complete.
Qed.

(** X21: when [filter_items] fails.  Without a window (hours absent or 0)
    it never raises.  With a window it raises an [OverflowError] when the
    cutoff cannot be computed, whatever the items; otherwise it raises a
    [DateParseError] when some item has a non-empty date that the parser
    rejects (also an item the limit would cut), and returns a list when
    there is none. *)
Theorem filter_items_failures (now : Z) (items : list Item)
    (hours limit : option Z) :
  (truthy_int hours = false →
   filter_items now items hours limit = Ok (limited limit items))
  ∧ ∀ h, hours = Some h → h ≠ 0 →
      (¬ cutoff_in_range now h →
       filter_items now items hours limit = Raise OverflowError)
      ∧ (cutoff_in_range now h →
         (∃ it, it ∈ items ∧ unparsable it) →
         filter_items now items hours limit = Raise DateParseError)
      ∧ (cutoff_in_range now h →
         (∀ it, it ∈ items → ¬ unparsable it) →
         ∃ out, filter_items now items hours limit = Ok out).
Proof.
  split; [apply filter_items_no_window|].
  intros h -> Hh. split; [by apply filter_items_overflow|].
  split; intros Hin Hitems; rewrite filter_items_windowed by done.
  - by rewrite keep_recent_raise.
  - destruct (keep_recent_ok (now - h * US_PER_HOUR) items Hitems)
      as [kept ->].
    by eexists.
Qed.

Lemma limited_idem (limit : option Z) (l : list Item) :
  match limit with Some n => 0 ≤ n | None => True end →
  limited limit (limited limit l) = limited limit l.
Proof.
  unfold limited, slice_to. destruct limit as [n|]; [|done].
  intros Hn. destruct (negb (n =? 0)); [|done].
  destruct (Z.leb_spec 0 n); [|lia].
  rewrite take_take. f_equal. lia.
Qed.

(** X22: filtering twice is filtering once, for an absent limit or one
    that is not negative: applied to its own result at the same moment,
    [filter_items] returns that result. *)
Theorem filter_items_idempotent (now : Z) (items : list Item)
    (hours limit : option Z) (out : list Item) :
  match limit with Some n => 0 ≤ n | None => True end →
  filter_items now items hours limit = Ok out →
  filter_items now out hours limit = Ok out.
Proof.
  intros Hlimit H.
  destruct (truthy_int_cases hours) as [Hno|(h & -> & Hh)].
  - rewrite filter_items_no_window in * by done. injection H as <-.
    by rewrite limited_idem.
  - apply filter_items_window_inv in H as (Hin & kept & Hk & ->); [|done].
    rewrite filter_items_windowed by done.
    rewrite keep_recent_all.
    + simpl. by rewrite limited_idem.
    + destruct (keep_recent_spec _ _ _ Hk) as [Hall _].
      apply Forall_forall. intros it Hit.
      apply (proj1 (Forall_forall _ _) Hall).
      by apply (sublist_subseteq _ _ (limited_sublist limit kept)).
Qed.

(** X23: the items of a digest.  When [get_digest] returns a list for a
    limit of at least 1, the list has at most [limit] items, is sorted by
    recency, and every item has tags without repetition and a summary of at
    most [MAX_SUMMARY_CHARS + 1] characters; the cache file and the sleeps
    are those of the fetch. *)
Theorem get_digest_items (w : World) (url : pystr) (hours : option Z)
    (limit : Z) (st st' : Sys) (items : list Item) :
  1 ≤ limit →
  get_digest w url hours limit st = (Ok items, st') →
  Z.of_nat (length items) ≤ limit
  ∧ StronglySorted key_ge items
  ∧ Forall (fun it => NoDup (tags it)
                      ∧ (length (summary it) ≤ MAX_SUMMARY_CHARS + 1)%nat)
      items
  ∧ st' = snd (polite_fetch w url 5 st).
Proof.
  intros Hlimit. unfold get_digest.
  destruct (polite_fetch w url 5 st) as [[[xml|]|e] st1]; [| |done].
  - destruct (parse_feed xml) as [parsed|e] eqn:Hparse; simpl; [|done].
    intros [= Hfilter <-].
    pose proof (filter_items_sublist_of _ _ _ _ _ Hfilter) as Hsub.
    split.
    { apply filter_items_inv in Hfilter as (windowed & -> & _).
      assert ((limit =? 0) = false) as -> by lia. simpl.
      by apply slice_to_length. }
    split.
    { apply (StronglySorted_sublist _ _ _ Hsub).
      unfold parse_feed in Hparse.
      destruct (normalize_all (feedparser_entries xml)); simpl in Hparse;
        [|done].
      injection Hparse as <-. apply sort_desc_sorted. }
    split; [|done].
    apply Forall_forall. intros it Hit.
    apply (sublist_subseteq _ _ Hsub) in Hit.
    destruct (parse_feed_items xml parsed it Hparse Hit) as (e & _ & He).
    apply normalize_entry_fields in He as (_ & _ & -> & ->).
    split; [|apply html_to_text_bound].
    apply add_section_tag_NoDup, extract_tags_NoDup.
  - intros [= <- <-]. split; [simpl; lia|]. split; [constructor|].
    split; [constructor|done].
Qed.

End FilterExtras.

(** * Properties of the Markdown renderer *)

Section MarkdownProps.

Lemma split_on_first (sep : N) (s : pystr) :
  split_on sep s !! 0%nat = Some (before_first sep s).
Proof.
  induction s as [|c s IH]; simpl; [done|].
  destruct (c =? sep)%N; [done|].
  destruct (split_on sep s) as [|piece pieces]; [done|].
  simpl in *. by injection IH as ->.
Qed.

Lemma split_on_second (sep : N) (s : pystr) :
  split_on sep s !! 1%nat = None ↔ sep ∉ s.
Proof.
  induction s as [|c s IH]; simpl.
  - split; [intros _; apply not_elem_of_nil|done].
  - destruct (N.eqb_spec c sep) as [->|Hne].
    + simpl. rewrite split_on_first. split; [done|].
      intros H. destruct H. by left.
    + rewrite not_elem_of_cons.
      pose proof (split_on_first sep s) as H0.
      destruct (split_on sep s) as [|piece pieces]; [done|].
      simpl in *. rewrite IH.
      split; [intros ?; split; [by intros ->|done]|by intros [_ ?]].
Qed.

Lemma md_date_part_some (it : Item) : ∃ d, md_date_part it = Some d.
Proof.
  unfold md_date_part. destruct (truthy_opt (published_ny it)); [|by eexists].
  rewrite split_on_first. by eexists.
Qed.

Lemma md_time_part_none (it : Item) : md_time_part it = None ↔ undivided it.
Proof.
  unfold md_time_part, undivided, truthy_opt.
  destruct (published_ny it) as [s|]; cbn [or_empty].
  - destruct (truthy s) eqn:Ht.
    + rewrite split_on_second. split.
      * intros Hno. exists s. split; [done|]. split; [by destruct s|done].
      * by intros (? & [= <-] & _ & ?).
    + destruct s; [|done]. split; [done|]. by intros (? & [= <-] & ? & _).
  - split; [done|]. by intros (? & ? & _).
Qed.

Lemma md_prints_none (items : list Item) :
  ∀ current, md_prints current items = None
             ↔ ∃ it, it ∈ items ∧ undivided it.
Proof.
  induction items as [|it items IH]; intros current; simpl.
  - split; [done|]. by intros (? & ?%elem_of_nil & _).
  - destruct (md_date_part_some it) as [d ->]. simpl.
    destruct (md_time_part it) as [t|] eqn:Ht; simpl.
    + destruct (md_prints (Some d) items) as [more|] eqn:Hmore; simpl.
      * split; [done|]. intros (x & [->|Hx]%elem_of_cons & Hbad).
        -- apply md_time_part_none in Hbad. congruence.
        -- assert (md_prints (Some d) items = None) as Hn
             by (apply IH; by exists x).
           congruence.
      * split; [|done]. intros _. apply IH in Hmore as (x & Hx & Hbad).
        exists x. split; [by right|done].
    + split; [|done]. intros _. exists it. split; [by left|].
      by apply md_time_part_none.
Qed.

(** X24: when [render_markdown] fails.  It raises (the [IndexError] of
    taking the time out of the date) exactly when some item has a non-empty
    [published_ny] without a space in it; undated items never make it
    fail. *)
Theorem render_markdown_fails_iff (items : list Item) :
  render_markdown items = None ↔ ∃ it, it ∈ items ∧ undivided it.
Proof.
  unfold render_markdown. rewrite <- (md_prints_none items None).
  by destruct (md_prints None items).
Qed.

Lemma rstrip_keeps_prefix (t rest : pystr) (c : N) :
  last t = Some c → is_space c = false →
  t `prefix_of` rstrip (t ++ rest).
Proof.
  intros Hlast Hc.
  destruct (rstrip_by_prefix is_space (t ++ rest)) as (post & Hpost & Hall).
  fold (rstrip (t ++ rest)) in Hpost.
  set (R := rstrip (t ++ rest)) in *. clearbody R.
  apply app_eq_inv in Hpost as [(k & Ht & Hk)|(k & Hr & _)].
  - destruct k as [|x k]; [exists []; by rewrite Ht, !app_nil_r|].
    exfalso. rewrite Ht, last_app in Hlast.
    destruct (last (x :: k)) as [y|] eqn:Hy; [|by apply last_None in Hy].
    injection Hlast as ->.
    apply last_Some_elem_of in Hy.
    assert (c ∈ post) as Hin by (rewrite Hk; apply elem_of_app; by left).
    apply (proj1 (Forall_forall _ _) Hall) in Hin. congruence.
  - by exists k.
Qed.

Lemma lstrip_keeps (t rest : pystr) (c : N) :
  head t = Some c → is_space c = false →
  lstrip_by is_space (t ++ rest) = t ++ rest.
Proof.
  destruct t as [|x t]; [done|]. intros [= ->] Hc. simpl. by rewrite Hc.
Qed.

Lemma printed_text (t : pystr) (prints : list pystr) :
  flat_map (fun s => s ++ [NEWLINE]) ((t ++ [NEWLINE]) :: prints)
  = t ++ [NEWLINE; NEWLINE] ++ flat_map (fun s => s ++ [NEWLINE]) prints.
Proof. simpl. by rewrite <- !app_assoc. Qed.

(** X25: the shape of the document.  A rendered document begins with the
    title line, has no whitespace at its ends, and for an empty list is the
    title alone. *)
Theorem render_markdown_shape (items : list Item) (doc : pystr) :
  render_markdown items = Some doc →
  md_title `prefix_of` doc
  ∧ trimmed doc
  ∧ (items = [] → doc = md_title).
Proof.
  unfold render_markdown.
  destruct (md_prints None items) as [prints|] eqn:Hp; [|done].
  intros H.
  assert (doc = strip (flat_map (fun s => s ++ [NEWLINE])
                         ((md_title ++ [NEWLINE]) :: prints))) as ->
    by (unfold mbind, option_bind in H; congruence).
  clear H. split; [|split; [apply strip_trimmed|]].
  - unfold strip, strip_by. rewrite printed_text.
    rewrite (lstrip_keeps md_title _ 35%N) by done.
    by apply (rstrip_keeps_prefix md_title _ 41%N).
  - intros ->. injection Hp as <-. vm_compute. reflexivity.
Qed.

End MarkdownProps.

Section MarkdownHeadings.

Lemma md_date_part_date (it : Item) : md_date_part it = Some (md_date it).
Proof.
  unfold md_date_part, md_date. destruct (truthy_opt (published_ny it));
    [apply split_on_first|done].
Qed.

Lemma md_headings_app (a b : list pystr) :
  md_headings (a ++ b) = md_headings a ++ md_headings b.
Proof. unfold md_headings. apply List.filter_app. Qed.

Lemma md_prints_cons (current : option pystr) (it : Item)
    (items : list Item) (prints : list pystr) :
  md_prints current (it :: items) = Some prints →
  ∃ t more,
    md_time_part it = Some t
    ∧ md_prints (Some (md_date it)) items = Some more
    ∧ prints
      = (if bool_decide (Some (md_date it) = current) then []
         else [md_heading (md_date it)])
        ++ [md_item_line t it]
        ++ (if truthy (summary it)
            then [py "  - " ++ reindent_bullets (summary it)] else [])
        ++ more.
Proof.
  simpl. rewrite md_date_part_date. simpl.
  destruct (md_time_part it) as [t|]; simpl; [|done].
  destruct (md_prints (Some (md_date it)) items) as [more|]; simpl; [|done].
  intros [= <-]. by exists t, more.
Qed.

Lemma md_prints_headings (items : list Item) :
  ∀ current prints,
    md_prints current items = Some prints →
    md_headings prints
    = List.map md_heading (date_changes current (List.map md_date items)).
Proof.
  induction items as [|it items IH]; intros current prints.
  - by intros [= <-].
  - intros (t & more & _ & Hmore & ->)%md_prints_cons.
    rewrite !md_headings_app. cbn [List.map date_changes].
    rewrite List.map_app, (IH _ _ Hmore).
    assert (md_headings [md_item_line t it] = []) as -> by done.
    assert (md_headings (if truthy (summary it)
                         then [py "  - " ++ reindent_bullets (summary it)]
                         else []) = []) as ->
      by by destruct (truthy (summary it)).
    simpl. f_equal. by case_bool_decide.
Qed.

Lemma date_changes_subseteq (dates : list pystr) :
  ∀ current, date_changes current dates ⊆ dates.
Proof.
  induction dates as [|d dates IH]; intros current; simpl; [done|].
  intros x [Hx|Hx]%elem_of_app.
  - case_bool_decide; [by apply elem_of_nil in Hx|].
    apply list_elem_of_singleton in Hx as ->. by left.
  - right. by eapply IH.
Qed.

Lemma date_changes_skip (d : pystr) (dates : list pystr) :
  grouped (d :: dates) → d ∉ date_changes (Some d) dates.
Proof.
  induction dates as [|e dates IH]; [intros _; apply not_elem_of_nil|].
  intros [Hnext [He Hg]].
  destruct (decide (e = d)) as [->|Hne].
  - cbn [date_changes]. rewrite bool_decide_eq_true_2 by done.
    apply IH. split; [|done]. intros Hin. apply He in Hin as Hhead.
    done.
  - intros Hin%date_changes_subseteq. destruct Hne.
    specialize (Hnext Hin). by injection Hnext.
Qed.

Lemma date_changes_NoDup (dates : list pystr) :
  grouped dates → ∀ current, NoDup (date_changes current dates).
Proof.
  induction dates as [|d dates IH]; intros Hg current; [constructor|].
  cbn [date_changes]. pose proof Hg as [_ Hrest].
  case_bool_decide; simpl; [by apply IH|].
  constructor; [by apply date_changes_skip|by apply IH].
Qed.

Lemma date_changes_elem (dates : list pystr) (d : pystr) :
  d ∈ dates → d ∈ date_changes None dates.
Proof.
  assert (Hgen : ∀ current,
             d ∈ dates → d ∈ date_changes current dates ∨ current = Some d).
  { induction dates as [|e dates IH]; intros current Hin;
      [by apply elem_of_nil in Hin|].
    cbn [date_changes]. apply elem_of_cons in Hin as [->|Hin].
    - case_bool_decide as Hc; [by right|]. left. by left.
    - destruct (IH (Some e) Hin) as [Hd|[= ->]].
      + left. apply elem_of_app. by right.
      + case_bool_decide as Hc; [by right|]. left. by left. }
  intros Hin. by destruct (Hgen None Hin).
Qed.

Lemma lex_between_prefix (p : pystr) :
  ∀ y a c, str_le (p ++ a) y = true → str_le y (p ++ c) = true →
           ∃ r, y = p ++ r.
Proof.
  unfold str_le.
  induction p as [|x p IH]; intros y a c Hlo Hhi; [by exists y|].
  destruct y as [|y0 y]; [done|]. simpl in Hlo, Hhi.
  rewrite (N.compare_antisym x y0) in Hhi.
  destruct (N.compare_spec x y0) as [->|Hlt|Hgt]; simpl in Hhi; [|done|done].
  destruct (IH y a c Hlo Hhi) as [r ->]. by exists r.
Qed.

Lemma before_first_split (sep : N) (s : pystr) :
  sep ∈ s → ∃ r, s = before_first sep s ++ sep :: r.
Proof.
  induction s as [|c s IH]; [by intros ?%elem_of_nil|].
  simpl. destruct (N.eqb_spec c sep) as [->|Hne]; [by exists s|].
  intros [->|Hin]%elem_of_cons; [done|].
  destruct (IH Hin) as [r Hr]. exists r. simpl. by rewrite <- Hr.
Qed.

Lemma before_first_app (sep : N) (d r : pystr) :
  sep ∉ d → before_first sep (d ++ sep :: r) = d.
Proof.
  induction d as [|c d IH]; simpl; [by rewrite N.eqb_refl|].
  intros [Hc Hd]%not_elem_of_cons.
  destruct (N.eqb_spec c sep) as [->|_]; [done|]. by rewrite IH.
Qed.

Lemma before_first_no_sep (sep : N) (s : pystr) : sep ∉ before_first sep s.
Proof. by intros [_ ?]%before_first_elem. Qed.

Lemma md_date_dated (it : Item) :
  truthy (sort_key it) = true →
  md_date it = before_first SPACE (sort_key it).
Proof. unfold md_date, truthy_opt, sort_key. by intros ->. Qed.

Lemma md_date_undated (it : Item) :
  sort_key it = [] → md_date it = py "Unknown".
Proof. unfold md_date, truthy_opt, sort_key. by intros ->. Qed.

Lemma divided_key (it : Item) :
  ¬ undivided it → truthy (sort_key it) = true →
  ∃ r, sort_key it = md_date it ++ SPACE :: r.
Proof.
  intros Hdiv Ht. rewrite (md_date_dated it Ht).
  apply before_first_split.
  destruct (decide (SPACE ∈ sort_key it)) as [|Hno]; [done|].
  destruct Hdiv. unfold undivided, sort_key in *.
  destruct (published_ny it) as [s|]; simpl in *; [|done].
  exists s. split; [done|]. split; [by destruct s|done].
Qed.

(** In a list sorted by recency whose dated items all have a time and none
    of them the date part "Unknown", items with the same date stand next to
    each other. *)
Lemma sorted_dates_grouped (items : list Item) :
  StronglySorted key_ge items →
  (∀ it, it ∈ items → ¬ undivided it) →
  (∀ it, it ∈ items → truthy (sort_key it) = true →
         md_date it ≠ py "Unknown") →
  grouped (List.map md_date items).
Proof.
  induction 1 as [|x rest Hsorted IH Hx]; intros Hdiv Hunk; [done|].
  cbn [List.map grouped]. split.
  2:{ apply IH; intros it Hit; [apply Hdiv|apply Hunk]; by right. }
  intros (z & Hzd & Hz%list_elem_of_In)%list_elem_of_In%in_map_iff.
  destruct rest as [|y rest']; [by apply elem_of_nil in Hz|].
  cbn [List.map head]. f_equal.
  apply Forall_cons in Hx as Hxy. destruct Hxy as [Hxy _].
  assert (Hxz : key_ge x z) by by apply (proj1 (Forall_forall _ _) Hx).
  assert (Hyz : str_le (sort_key z) (sort_key y) = true).
  { apply elem_of_cons in Hz as [->|Hz].
    - unfold str_le. by rewrite str_compare_refl.
    - apply StronglySorted_inv in Hsorted as [_ Hy].
      by apply (proj1 (Forall_forall _ _) Hy). }
  unfold key_ge in *.
  destruct (truthy (sort_key x)) eqn:Htx.
  - assert (Htz : truthy (sort_key z) = true).
    { destruct (truthy (sort_key z)) eqn:Htz; [done|].
      destruct (Hunk x); [by left|done|].
      rewrite <- Hzd. apply md_date_undated. by destruct (sort_key z). }
    destruct (divided_key x) as [rx Hkx]; [apply Hdiv; by left|done|].
    destruct (divided_key z) as [rz Hkz]; [apply Hdiv; by right|done|].
    rewrite Hzd in Hkz.
    destruct (lex_between_prefix (md_date x ++ [SPACE]) (sort_key y) rz rx)
      as [ry Hky].
    { rewrite <- app_assoc. simpl. by rewrite <- Hkz. }
    { rewrite <- app_assoc. simpl. by rewrite <- Hkx. }
    rewrite <- app_assoc in Hky. simpl in Hky.
    rewrite (md_date_dated y), Hky.
    + apply before_first_app. rewrite (md_date_dated x Htx).
      apply before_first_no_sep.
    + rewrite Hky. by destruct (md_date x).
  - assert (sort_key x = []) as Hkx by by destruct (sort_key x).
    rewrite Hkx in Hxy. apply str_le_nil_inv in Hxy.
    by rewrite (md_date_undated x Hkx), (md_date_undated y Hxy).
Qed.

Lemma md_heading_inj (a b : pystr) : md_heading a = md_heading b → a = b.
Proof. unfold md_heading. by intros ?%app_inv_head%app_inv_head. Qed.

(** X26: one heading for each date.  For a list sorted by recency whose
    dated items never have the date part "Unknown", the headings printed by
    [render_markdown] are pairwise different, and they are exactly the
    headings of the dates that occur (the heading "Unknown" for undated
    items). *)
Theorem render_markdown_headings (items : list Item) (prints : list pystr) :
  StronglySorted key_ge items →
  md_prints None items = Some prints →
  (∀ it, it ∈ items → truthy (sort_key it) = true →
         md_date it ≠ py "Unknown") →
  NoDup (md_headings prints)
  ∧ ∀ h, h ∈ md_headings prints
         ↔ ∃ it, it ∈ items ∧ h = md_heading (md_date it).
Proof.
  intros Hsorted Hprints Hunk.
  rewrite (md_prints_headings items None prints Hprints).
  assert (Hdiv : ∀ it, it ∈ items → ¬ undivided it).
  { intros it Hit Hbad.
    assert (md_prints None items = None) as Hn
      by (apply md_prints_none; by exists it).
    congruence. }
  split.
  - apply NoDup_fmap_2; [intros a b; apply md_heading_inj|].
    by apply date_changes_NoDup, sorted_dates_grouped.
  - intros h. split.
    + intros (d & <- & Hd%list_elem_of_In)%list_elem_of_In%in_map_iff.
      apply date_changes_subseteq in Hd.
      apply list_elem_of_In, in_map_iff in Hd as (it & <- & Hit).
      exists it. split; [by apply list_elem_of_In|done].
    + intros (it & Hit & ->). apply list_elem_of_In, in_map.
      apply list_elem_of_In, date_changes_elem.
      by apply list_elem_of_In, in_map, list_elem_of_In.
Qed.

End MarkdownHeadings.

Section PipelineRenders.

Context `{L : PyLibs}.

Lemma normalize_entry_date (e : RawEntry) (it : Item) :
  normalize_entry e = Ok it →
  published_ny it = None
  ∨ ∃ w, published_ny it = Some (strftime_ymd_hm w).
Proof.
  unfold normalize_entry.
  destruct (_coerce_dt _ _) as [dt|]; simpl.
  - destruct (_to_ny dt) as [d|]; simpl; [|done].
    intros [= <-]. right. by exists (wall d).
  - intros [= <-]. by left.
Qed.

(** X27: what the pipeline produces can be rendered.  When the date format
    puts a space into every date it writes (as "%Y-%m-%d %H:%M" does), the
    items of a parsed feed, filtered or not, never make [render_markdown]
    fail. *)
Theorem pipeline_renders (xml : pystr) (parsed items : list Item) (now : Z)
    (hours limit : option Z) :
  (∀ w, SPACE ∈ strftime_ymd_hm w) →
  parse_feed xml = Ok parsed →
  filter_items now parsed hours limit = Ok items →
  ∃ doc, render_markdown items = Some doc.
Proof.
  intros Hspace Hparse Hfilter. unfold render_markdown.
  destruct (md_prints None items) as [prints|] eqn:Hp; [by eexists|].
  exfalso. apply md_prints_none in Hp as (it & Hit & s & Hs & _ & Hno).
  apply (sublist_subseteq _ _ (filter_items_sublist_of _ _ _ _ _ Hfilter))
    in Hit.
  destruct (parse_feed_items xml parsed it Hparse Hit) as (e & _ & He).
  apply normalize_entry_date in He as [Hnone|[w Hw]]; [congruence|].
  rewrite Hw in Hs. injection Hs as <-. by destruct Hno.
Qed.

End PipelineRenders.

(** * Runs of the further properties on the test doubles *)

Lemma polite_fetch_cache_frame_witness :
  cache (snd (@polite_fetch Mock.libs Mock.busy_world FEED_URL 5 Mock.stored))
  = cache Mock.stored.
Proof.
  refine (polite_fetch_cache_frame (L := Mock.libs) Mock.busy_world FEED_URL 5
            Mock.stored _ (Ok None) _ _).
  - vm_compute. reflexivity.
  - discriminate.
Defined.

Lemma polite_fetch_stores_validators_witness :
  ∃ k r,
    1 ≤ k ≤ 5
    ∧ client_get Mock.revalidating_world
        (request_headers (_load_cache (cache Mock.no_cache))) FEED_URL k
      = Responds r
    ∧ status_code r = 200
    ∧ Mock.feed_xml = r_text r
    ∧ request_headers
        (_load_cache
           (cache (snd (@polite_fetch Mock.libs Mock.revalidating_world
                          FEED_URL 5 Mock.no_cache))))
      !! "If-None-Match"%string
      = validator_header
          (py_or (hdr_etag r)
             (dict_get (_load_cache (cache Mock.no_cache)) "etag"))
    ∧ request_headers
        (_load_cache
           (cache (snd (@polite_fetch Mock.libs Mock.revalidating_world
                          FEED_URL 5 Mock.no_cache))))
      !! "If-Modified-Since"%string
      = validator_header
          (py_or (hdr_last_modified r)
             (dict_get (_load_cache (cache Mock.no_cache)) "last_modified"))
    ∧ dict_get
        (_load_cache
           (cache (snd (@polite_fetch Mock.libs Mock.revalidating_world
                          FEED_URL 5 Mock.no_cache))))
        "fetched_at"
      = Some (utcnow_isoformat Mock.revalidating_world).
Proof.
  refine (polite_fetch_stores_validators (L := Mock.libs)
            Mock.revalidating_world FEED_URL 5 Mock.no_cache
            (snd (@polite_fetch Mock.libs Mock.revalidating_world FEED_URL 5
                    Mock.no_cache))
            Mock.feed_xml _ _).
  - vm_compute. reflexivity.
  - reflexivity.
Defined.

Lemma polite_fetch_error_last_witness :
  1 ≤ 5
  ∧ (client_get Mock.failing_world
       (request_headers (_load_cache (cache Mock.no_cache))) FEED_URL 5
     = Throws HTTPError
     ∨ ∃ r, client_get Mock.failing_world
              (request_headers (_load_cache (cache Mock.no_cache))) FEED_URL 5
            = Responds r
            ∧ @status_raises Mock.libs (status_code r) = true
            ∧ status_code r ≠ 200 ∧ status_code r ≠ 304
            ∧ status_code r ≠ 429 ∧ status_code r ≠ 503).
Proof.
  refine (polite_fetch_error_last (L := Mock.libs) Mock.failing_world FEED_URL
            5 Mock.no_cache _).
  vm_compute. reflexivity.
Defined.

Lemma polite_fetch_other_exception_witness :
  ∃ naps, Z.of_nat (length naps) ≤ 2 - 1
          ∧ @polite_fetch Mock.libs Mock.broken_world FEED_URL 5 Mock.stored
            = (Raise ClientError,
               {| cache := cache Mock.stored;
                  slept := slept Mock.stored ++ naps |}).
Proof.
  refine (polite_fetch_other_exception (L := Mock.libs) Mock.broken_world
            FEED_URL 5 Mock.stored 2 ClientError _ _ _ _).
  - lia.
  - intros i Hi. assert (i = 1) as -> by lia. vm_compute. reflexivity.
  - vm_compute. reflexivity.
  - discriminate.
Defined.

Lemma polite_fetch_200_witness :
  ∃ naps, Z.of_nat (length naps) ≤ 2 - 1
          ∧ @polite_fetch Mock.libs Mock.revalidating_world FEED_URL 5
              Mock.no_cache
            = (Ok (Some Mock.feed_xml),
               {| cache := _save_cache WriteOk
                             (new_cache_record Mock.revalidating_world
                                (_load_cache (cache Mock.no_cache))
                                {| status_code := 200;
                                   hdr_etag := Some (py "v1");
                                   hdr_last_modified := None;
                                   r_text := Mock.feed_xml |})
                             (cache Mock.no_cache);
                  slept := slept Mock.no_cache ++ naps |}).
Proof.
  refine (polite_fetch_200 (L := Mock.libs) Mock.revalidating_world FEED_URL 5
            Mock.no_cache 2
            {| status_code := 200; hdr_etag := Some (py "v1");
               hdr_last_modified := None; r_text := Mock.feed_xml |}
            _ _ _ _).
  - lia.
  - intros i Hi. assert (i = 1) as -> by lia. vm_compute. reflexivity.
  - vm_compute. reflexivity.
  - reflexivity.
Defined.


Lemma parse_feed_permutation_witness :
  ∃ its, @normalize_all Mock.libs (@feedparser_entries Mock.libs Mock.feed_xml)
         = Ok its
         ∧ Mock.items ≡ₚ its
         ∧ length Mock.items
           = length (@feedparser_entries Mock.libs Mock.feed_xml).
Proof.
  refine (parse_feed_permutation (L := Mock.libs) Mock.feed_xml Mock.items _).
  vm_compute. reflexivity.
Defined.

Lemma parse_feed_stable_witness :
  with_key [] Mock.items
  = with_key [] [Mock.item_undated; Mock.item_oil; Mock.item_ecb].
Proof.
  refine (parse_feed_stable (L := Mock.libs) Mock.feed_xml Mock.items
            [Mock.item_undated; Mock.item_oil; Mock.item_ecb] [] _ _).
  - vm_compute. reflexivity.
  - vm_compute. reflexivity.
Defined.

Lemma parse_feed_item_shape_witness :
  trimmed (title Mock.item_ecb) ∧ trimmed (link Mock.item_ecb)
  ∧ trimmed (summary Mock.item_ecb)
  ∧ single_spaced (summary Mock.item_ecb) = true
  ∧ (length (summary Mock.item_ecb) ≤ MAX_SUMMARY_CHARS + 1)%nat
  ∧ (length (tags Mock.item_ecb) ≤ 15)%nat
  ∧ ∀ t, t ∈ tags Mock.item_ecb →
         t ∈ List.map snd KEYWORD_TAGS
         ∨ @_section_tag_from_url Mock.libs (link Mock.item_ecb) = Some t.
Proof.
  refine (parse_feed_item_shape (L := Mock.libs) Mock.feed_xml Mock.items
            Mock.item_ecb _ _).
  - vm_compute. reflexivity.
  - apply list_elem_of_here.
Defined.

(** The early entry cannot be brought to New York time: the feed that holds
    it makes [parse_feed] raise. *)
Lemma parse_feed_date_out_of_range_witness :
  ∃ x, @parse_feed Mock.early_libs Mock.feed_xml = Raise x.
Proof.
  refine (parse_feed_date_out_of_range (L := Mock.early_libs) Mock.feed_xml
            Mock.entry_early {| wall := 0; utcoffset := Some 0 |} _ _ _).
  - apply list_elem_of_here.
  - vm_compute. reflexivity.
  - right. right. vm_compute. intros [H _]. by apply H.
Defined.

Lemma extract_tags_case_insensitive_witness :
  @_extract_tags Mock.libs (List.map ascii_upper (py "Gold and the Fed"))
  = @_extract_tags Mock.libs (py "Gold and the Fed")
  ∧ @_extract_tags Mock.libs (List.map ascii_lower (py "Gold and the Fed"))
    = @_extract_tags Mock.libs (py "Gold and the Fed").
Proof.
  refine (extract_tags_case_insensitive (L := Mock.libs)
            (py "Gold and the Fed") _).
  reflexivity.
Defined.

Lemma extract_tags_needs_words_witness :
  @_extract_tags Mock.libs (py "... -- / ?!") = [].
Proof.
  refine (extract_tags_needs_words (L := Mock.libs) (py "... -- / ?!") _ _).
  - reflexivity.
  - repeat constructor; discriminate.
Defined.

Lemma filter_items_sublist_witness :
  [Mock.item_ecb] `sublist_of` Mock.items
  ∧ (StronglySorted key_ge Mock.items → StronglySorted key_ge [Mock.item_ecb]).
Proof.
  refine (filter_items_sublist (L := Mock.libs) (Mock.at_hm 12 0) Mock.items
            (Some 6) (Some 40) [Mock.item_ecb] _).
  vm_compute. reflexivity.
Defined.

Lemma filter_items_window_complete_witness :
  Mock.item_oil ∈ [Mock.item_ecb; Mock.item_oil]
  ↔ Mock.item_oil ∈ Mock.items
    ∧ @dated_since Mock.libs (Mock.at_hm 12 0 - 48 * US_PER_HOUR)
        Mock.item_oil.
Proof.
  refine (filter_items_window_complete (L := Mock.libs) (Mock.at_hm 12 0)
            Mock.items 48 [Mock.item_ecb; Mock.item_oil] _ _ Mock.item_oil).
  - discriminate.
  - vm_compute. reflexivity.
Defined.

(** A date the parser rejects makes the window fail, also with a limit
    that would cut the item off. *)
Lemma filter_items_failures_witness :
  @filter_items Mock.libs (Mock.at_hm 12 0)
    [Mock.item_ecb; Mock.item_garbled] (Some 6) (Some 1)
  = Raise DateParseError.
Proof.
  refine (proj1 (proj2 (proj2 (filter_items_failures (L := Mock.libs)
                                 (Mock.at_hm 12 0)
                                 [Mock.item_ecb; Mock.item_garbled]
                                 (Some 6) (Some 1)) 6 eq_refl _)) _ _).
  - discriminate.
  - unfold cutoff_in_range. vm_compute. repeat split; discriminate.
  - exists Mock.item_garbled. split; [apply list_elem_of_further, list_elem_of_here|].
    exists (py "yesterday evening"). split; [reflexivity|].
    split; [discriminate|]. vm_compute. reflexivity.
Defined.

Lemma filter_items_idempotent_witness :
  @filter_items Mock.libs (Mock.at_hm 12 0) [Mock.item_ecb; Mock.item_oil]
    (Some 48) (Some 2)
  = Ok [Mock.item_ecb; Mock.item_oil].
Proof.
  refine (filter_items_idempotent (L := Mock.libs) (Mock.at_hm 12 0)
            Mock.items (Some 48) (Some 2) [Mock.item_ecb; Mock.item_oil] _ _).
  - simpl. lia.
  - vm_compute. reflexivity.
Defined.

Lemma get_digest_items_witness :
  Z.of_nat (length [Mock.item_ecb; Mock.item_oil]) ≤ 2
  ∧ StronglySorted key_ge [Mock.item_ecb; Mock.item_oil]
  ∧ Forall (fun it => NoDup (tags it)
                      ∧ (length (summary it) ≤ MAX_SUMMARY_CHARS + 1)%nat)
      [Mock.item_ecb; Mock.item_oil]
  ∧ snd (@polite_fetch Mock.libs Mock.fresh_world FEED_URL 5 Mock.no_cache)
    = snd (@polite_fetch Mock.libs Mock.fresh_world FEED_URL 5 Mock.no_cache).
Proof.
  refine (get_digest_items (L := Mock.libs) Mock.fresh_world FEED_URL None 2
            Mock.no_cache
            (snd (@polite_fetch Mock.libs Mock.fresh_world FEED_URL 5
                    Mock.no_cache))
            [Mock.item_ecb; Mock.item_oil] _ _).
  - lia.
  - vm_compute. reflexivity.
Defined.

(** A date without a time makes the renderer fail. *)
Lemma render_markdown_fails_iff_witness :
  render_markdown [Mock.item_ecb; Mock.item_dateonly] = None.
Proof.
  apply (proj2 (render_markdown_fails_iff [Mock.item_ecb; Mock.item_dateonly])).
  exists Mock.item_dateonly.
  split; [apply list_elem_of_further, list_elem_of_here|].
  exists (py "2024-05-01"). split; [reflexivity|]. split; [discriminate|].
  apply (bool_decide_unpack (SPACE ∉ py "2024-05-01")). vm_compute. exact I.
Defined.

Lemma render_markdown_shape_witness :
  ∃ doc, render_markdown Mock.items = Some doc
         ∧ md_title `prefix_of` doc ∧ trimmed doc
         ∧ (Mock.items = [] → doc = md_title).
Proof.
  destruct (render_markdown Mock.items) as [doc|] eqn:Hdoc;
    [|vm_compute in Hdoc; discriminate].
  exists doc. split; [done|].
  exact (render_markdown_shape Mock.items doc Hdoc).
Defined.

Lemma render_markdown_headings_witness :
  ∃ prints, md_prints None Mock.items = Some prints
            ∧ NoDup (md_headings prints)
            ∧ ∀ h, h ∈ md_headings prints
                   ↔ ∃ it, it ∈ Mock.items ∧ h = md_heading (md_date it).
Proof.
  destruct (md_prints None Mock.items) as [prints|] eqn:Hp;
    [|vm_compute in Hp; discriminate].
  exists prints. split; [done|].
  refine (render_markdown_headings Mock.items prints _ Hp _).
  - assert (Mock.items
            = sort_desc [Mock.item_undated; Mock.item_oil; Mock.item_ecb])
      as -> by (vm_compute; reflexivity).
    apply sort_desc_sorted.
  - intros it Hit Ht.
    repeat (apply elem_of_cons in Hit as [->|Hit];
            [first [by vm_compute in Ht | by vm_compute]|]).
    by apply elem_of_nil in Hit.
Defined.

Lemma pipeline_renders_witness :
  ∃ doc, render_markdown [Mock.item_ecb] = Some doc.
Proof.
  refine (pipeline_renders (L := Mock.libs) Mock.feed_xml Mock.items
            [Mock.item_ecb] (Mock.at_hm 12 0) (Some 6) (Some 40) _ _ _).
  - intros w. simpl. unfold Mock.format_date.
    repeat case_match;
      match goal with
      | |- SPACE ∈ ?s => apply (bool_decide_unpack (SPACE ∈ s))
      end; vm_compute; exact I.
  - vm_compute. reflexivity.
  - vm_compute. reflexivity.
Defined.

(** * Date resolution and cache writes *)

Section DateAndCache.

Context `{L : PyLibs}.

(** X28: how [_coerce_dt] chooses.  A non-empty date text that parses wins
    over the structured date; the structured date (its first six fields,
    as UTC) is used when the text is empty or does not parse; and there is
    no date exactly when both ways fail.  No exception leaves the
    function. *)
Theorem coerce_dt_choice (s : pystr) (fallback : option (list Z)) :
  let from_struct :=
    if truthy_struct fallback
    then datetime_utc (firstn 6 (default [] fallback)) else None in
  (∀ dt, truthy s = true → dtparse_parse s = Some dt →
         _coerce_dt s fallback = Some dt)
  ∧ (truthy s = false ∨ dtparse_parse s = None →
     _coerce_dt s fallback = from_struct)
  ∧ (_coerce_dt s fallback = None
     ↔ (truthy s = false ∨ dtparse_parse s = None) ∧ from_struct = None).
Proof.
  intros from_struct.
  assert (Hfb : match fallback with
                | Some (f :: fs) => datetime_utc (firstn 6 (f :: fs))
                | _ => None
                end = from_struct).
  { unfold from_struct. by destruct fallback as [[|f fs]|]. }
  unfold _coerce_dt. rewrite Hfb.
  assert (Hnone : truthy s = false → truthy_struct fallback = false →
                  from_struct = None).
  { unfold from_struct. by intros _ ->. }
  destruct (truthy s) eqn:Hs; simpl.
  - destruct (dtparse_parse s) as [dt|] eqn:Hp.
    + split; [by intros ? _ [= <-]|]. split; [by intros [?|?]|].
      split; [done|]. by intros [[?|?] _].
    + split; [done|]. split; [done|]. split; [by intros ->; split; [right|]|].
      by intros [_ ?].
  - destruct (truthy_struct fallback) eqn:Hf; simpl.
    + split; [done|]. split; [done|].
      split; [by intros ->; split; [left|]|]. by intros [_ ?].
    + rewrite (Hnone eq_refl eq_refl).
      split; [done|]. split; [done|]. split; [by intros _; split; [left|]|done].
Qed.

(** X29: which date an item gets.  A non-empty [published] text that parses
    decides the date, whatever [updated] and the structured dates hold: the
    item's [published_ny] is the formatted New York reading of that
    datetime.  An entry without any date gets no [published_ny]. *)
Theorem normalize_entry_published_first (e : RawEntry) (it : Item) :
  normalize_entry e = Ok it →
  (∀ s dt, e_published e = Some s → s ≠ [] → dtparse_parse s = Some dt →
           ∃ d, _to_ny dt = Ok d
                ∧ published_ny it = Some (strftime_ymd_hm (wall d)))
  ∧ (truthy_opt (e_published e) = false →
     truthy_opt (e_updated e) = false →
     truthy_struct (e_published_parsed e) = false →
     truthy_struct (e_updated_parsed e) = false →
     published_ny it = None).
Proof.
  unfold normalize_entry. intros H. split.
  - intros s dt Hpub Hs Hp. rewrite Hpub in H.
    assert (truthy s = true) as Ht by by destruct s.
    unfold py_or, truthy_opt in H. simpl in H. rewrite Ht in H. simpl in H.
    rewrite Ht in H. simpl in H.
    unfold _coerce_dt in H. rewrite Ht, Hp in H. simpl in H.
    destruct (_to_ny dt) as [d|]; simpl in H; [|done].
    exists d. split; [done|]. by injection H as <-.
  - intros Hpub Hupd Hps Hus.
    unfold py_or, py_or_struct in H. rewrite Hpub, Hupd, Hps in H.
    simpl in H. unfold _coerce_dt in H. rewrite Hus in H. simpl in H.
    by injection H as <-.
Qed.

Lemma fetch_loop_same_server (w1 w2 : World) (headers : gmap string pystr)
    (c1 c2 : json_dict) (url : pystr) (max_retries : Z) :
  same_server w1 w2 →
  ∀ (n : nat) (attempt backoff : Z) (st1 st2 : Sys),
    slept st1 = slept st2 →
    let r1 := fetch_loop w1 headers c1 url max_retries n attempt backoff st1 in
    let r2 := fetch_loop w2 headers c2 url max_retries n attempt backoff st2 in
    fst r1 = fst r2 ∧ slept (snd r1) = slept (snd r2).
Proof.
  intros Hserver.
  induction n as [|n IH]; intros attempt backoff st1 st2 Hslept; simpl;
    [done|].
  rewrite <- (Hserver headers url attempt).
  assert (Hsleep : ∀ t, slept (sleep backoff t st1)
                        = slept (sleep backoff t st2)).
  { intros t. unfold sleep. simpl. by rewrite Hslept. }
  destruct (client_get w1 headers url attempt) as [r|e].
  - destruct (status_code r =? 304); [done|].
    destruct (status_code r =? 200); [done|].
    destruct ((status_code r =? 429) || (status_code r =? 503));
      [by apply IH|].
    destruct (status_raises (status_code r)); [|by apply IH].
    destruct (attempt =? max_retries); [done|by apply IH].
  - destruct e; try done.
    destruct (attempt =? max_retries); [done|by apply IH].
Qed.

(** X30: a cache write that fails is not an error of the fetch.  Starting
    from a cache file that is absent, unreadable or a JSON object of strings
    and nulls, and with the same answers of the server, what a call returns
    or raises and what it sleeps is the same whether the cache file can be
    written or not, and whatever the clock reads. *)
Theorem polite_fetch_write_independent (w1 w2 : World) (url : pystr)
    (max_retries : Z) (st : Sys) :
  same_server w1 w2 →
  fst (polite_fetch w1 url max_retries st)
  = fst (polite_fetch w2 url max_retries st)
  ∧ slept (snd (polite_fetch w1 url max_retries st))
    = slept (snd (polite_fetch w2 url max_retries st)).
Proof.
  intros Hserver. unfold polite_fetch. by apply fetch_loop_same_server.
Qed.

End DateAndCache.

Lemma coerce_dt_choice_witness :
  @_coerce_dt Mock.libs (py "Wed, 01 May 2024 14:00:00 GMT")
    (Some [2000; 1; 1; 0; 0; 0])
  = Some {| wall := Mock.at_hm 14 0; utcoffset := Some 0 |}.
Proof.
  refine (proj1 (coerce_dt_choice (L := Mock.libs)
                   (py "Wed, 01 May 2024 14:00:00 GMT")
                   (Some [2000; 1; 1; 0; 0; 0])) _ _ _).
  - reflexivity.
  - vm_compute. reflexivity.
Defined.

Lemma normalize_entry_published_first_witness :
  ∃ d, @_to_ny Mock.libs {| wall := Mock.at_hm 14 0; utcoffset := Some 0 |}
       = Ok d
       ∧ published_ny Mock.item_ecb
         = Some (@strftime_ymd_hm Mock.libs (wall d)).
Proof.
  refine (proj1 (normalize_entry_published_first (L := Mock.libs)
                   Mock.entry_ecb Mock.item_ecb _)
            (py "Wed, 01 May 2024 14:00:00 GMT")
            {| wall := Mock.at_hm 14 0; utcoffset := Some 0 |} _ _ _).
  - vm_compute. reflexivity.
  - reflexivity.
  - discriminate.
  - vm_compute. reflexivity.
Defined.

Lemma polite_fetch_write_independent_witness :
  fst (@polite_fetch Mock.libs Mock.fresh_world FEED_URL 5 Mock.no_cache)
  = fst (@polite_fetch Mock.libs
           {| client_get := client_get Mock.fresh_world;
              utcnow_isoformat := py "2024-05-02T08:00:00+00:00";
              cache_write := DumpFails;
              now_ny := Mock.at_hm 12 0 |}
           FEED_URL 5 Mock.no_cache)
  ∧ slept (snd (@polite_fetch Mock.libs Mock.fresh_world FEED_URL 5
                  Mock.no_cache))
    = slept (snd (@polite_fetch Mock.libs
                    {| client_get := client_get Mock.fresh_world;
                       utcnow_isoformat := py "2024-05-02T08:00:00+00:00";
                       cache_write := DumpFails;
                       now_ny := Mock.at_hm 12 0 |}
                    FEED_URL 5 Mock.no_cache)).
Proof.
  refine (polite_fetch_write_independent (L := Mock.libs) Mock.fresh_world
            {| client_get := client_get Mock.fresh_world;
               utcnow_isoformat := py "2024-05-02T08:00:00+00:00";
               cache_write := DumpFails;
               now_ny := Mock.at_hm 12 0 |}
            FEED_URL 5 Mock.no_cache _).
  intros headers url attempt. reflexivity.
Defined.
